(** * OSRS price tracker: the fetch / compare / store loop

    A shallow embedding of [ge_tracker.py] (class [GETracker]) and of the
    tracking half of [ui_tracker.py] (class [OSRSPriceTracker]), with the
    properties of the tracking core stated over it.

    Conventions of the embedding.
    - A Python method becomes a function in the monad [Py]: it threads the
      application state and either returns a value or raises.
    - [requests.get] is the only source of exceptions that is modelled: it
      raises [ConnectionError] when the host cannot be reached and returns
      a response (status code and decoded JSON body) otherwise.  Bodies of
      200 responses are taken well formed.
    - Prices are JSON integers; the REAL columns of the table hold them
      without loss (they are far below 2^53), so prices and their
      differences are integers of [Z].
    - A list entry of the [QListWidget] keeps the four numbers that its
      text renders with [format_price] and [format_change], next to its
      [Qt.UserRole] data and its foreground colour.
    - [refreshPrices] reads the columns [high_price] and [low_price] as
      the previous prices and compares the fetched ones with them: that
      pair is the baseline of a row.  The columns [last_high_price] and
      [last_low_price] hold the pair before it. *)

From Stdlib Require Import Ascii.
From stdpp Require Import base strings list gmap pretty.

Local Open Scope Z_scope.

(** ** Data *)

(** One element of the [/mapping] catalog. *)
Module Catalog.
Record t := Build { id : Z; name : string }.
End Catalog.

(** One value of the ["data"] object of [/latest]. *)
Module Latest.
Record t := Build { high : Z; low : Z; highTime : Z; lowTime : Z }.
End Latest.

(** One value of the dict returned by [fetch_prices]; [last_updated] is
    [datetime.fromtimestamp(highTime)], kept as the timestamp. *)
Module Price.
Record t := Build { high : Z; low : Z; last_updated : Z }.
End Price.

(** Foreground colours set by [updateItemColor]:
    [Green] is #4CAF50, [Red] is #F44336, [Amber] is #FFC107. *)
Inductive QColor := Green | Red | Amber.

Record QListWidgetItem := ListItem {
  role : string;          (* item.data(Qt.UserRole) *)
  buy : Z;                (* "Buy: {high_price} ..." *)
  buy_change : Z;         (* "... ({high_change})" *)
  sell : Z;               (* "Sell: {low_price} ..." *)
  sell_change : Z;        (* "... ({low_change})" *)
  foreground : option QColor   (* None: the default brush *)
}.

(** A row of the table [items] of [initDB]. *)
Record Row := MkRow {
  id : Z;                          (* INTEGER PRIMARY KEY AUTOINCREMENT *)
  name : string;                   (* TEXT NOT NULL *)
  high_price : Z;                  (* REAL NOT NULL *)
  low_price : Z;                   (* REAL NOT NULL *)
  last_high_price : option Z;      (* REAL *)
  last_low_price : option Z        (* REAL *)
}.

(** The table: its rows in rowid order and the AUTOINCREMENT counter
    ([sqlite_sequence]), the largest rowid ever handed out. *)
Record Table := MkTable { rows : list Row; sqlite_sequence : Z }.

(** The whole application state, with the two channels to the outside:
    the lines printed and the URLs requested, oldest first. *)
Record App := MkApp {
  items : list (string * Z);        (* ge_tracker.items, in insertion order *)
  all_items : gmap string Z;        (* self.all_items *)
  table : Table;                    (* osrs_prices.db *)
  tracked_items : list QListWidgetItem;  (* self.tracked_items *)
  stdout : list string;
  requests : list string
}.

Definition set_items (f : list (string * Z) → list (string * Z)) (st : App) : App :=
  MkApp (f (items st)) (all_items st) (table st) (tracked_items st)
        (stdout st) (requests st).
Definition set_all_items (m : gmap string Z) (st : App) : App :=
  MkApp (items st) m (table st) (tracked_items st) (stdout st) (requests st).
Definition set_table (f : Table → Table) (st : App) : App :=
  MkApp (items st) (all_items st) (f (table st)) (tracked_items st)
        (stdout st) (requests st).
Definition set_tracked_items (f : list QListWidgetItem → list QListWidgetItem)
    (st : App) : App :=
  MkApp (items st) (all_items st) (table st) (f (tracked_items st))
        (stdout st) (requests st).
Definition set_stdout (f : list string → list string) (st : App) : App :=
  MkApp (items st) (all_items st) (table st) (tracked_items st)
        (f (stdout st)) (requests st).
Definition set_requests (f : list string → list string) (st : App) : App :=
  MkApp (items st) (all_items st) (table st) (tracked_items st)
        (stdout st) (f (requests st)).

(** ** Python dict with insertion order: [GETracker.items] *)

Fixpoint dict_get (d : list (string * Z)) (k : string) : option Z :=
  match d with
  | [] => None
  | (k', v) :: d' => if decide (k' = k) then Some v else dict_get d' k
  end.

(** [d[k] = v]: an existing key keeps its position. *)
Fixpoint dict_set (k : string) (v : Z) (d : list (string * Z)) : list (string * Z) :=
  match d with
  | [] => [(k, v)]
  | (k', v') :: d' =>
      if decide (k' = k) then (k, v) :: d' else (k', v') :: dict_set k v d'
  end.

(** [del d[k]], guarded by [k in d] at its only call. *)
Definition dict_del (k : string) (d : list (string * Z)) : list (string * Z) :=
  filter (λ kv, kv.1 ≠ k) d.

(** ** The monad of Python methods *)

Inductive Exn := ConnectionError (msg : string).

Inductive Outcome (A : Type) := Returned (a : A) | Raised (e : Exn).
Arguments Returned {A} a.
Arguments Raised {A} e.

Definition Py (A : Type) : Type := App → Outcome A * App.

Definition ret {A} (a : A) : Py A := λ st, (Returned a, st).
Definition raise {A} (e : Exn) : Py A := λ st, (Raised e, st).
Definition bind {A B} (m : Py A) (k : A → Py B) : Py B :=
  λ st, match m st with
        | (Returned a, st') => k a st'
        | (Raised e, st') => (Raised e, st')
        end.
Definition get_state : Py App := λ st, (Returned st, st).
Definition modify (f : App → App) : Py unit := λ st, (Returned tt, f st).

(** [try: m except Exception as e: h e] *)
Definition try_except {A} (m : Py A) (h : Exn → Py A) : Py A :=
  λ st, match m st with
        | (Returned a, st') => (Returned a, st')
        | (Raised e, st') => h e st'
        end.

Declare Scope py_scope.
Delimit Scope py_scope with py.
Notation "x <- m ;; k" := (bind m (λ x, k))
  (at level 100, m at next level, right associativity) : py_scope.
Notation "m ;; k" := (bind m (λ _, k))
  (at level 100, right associativity) : py_scope.
Local Open Scope py_scope.

Definition print (line : string) : Py unit :=
  modify (set_stdout (λ out, out ++ [line])).

(** ** [requests.get] *)

(** What the remote end does with one request: no answer at all, or a
    response with its status code and decoded body. *)
Inductive Reply (J : Type) := Unreachable (why : string) | Response (status_code : Z) (json : J).
Arguments Unreachable {J} why.
Arguments Response {J} status_code json.

Definition requests_get {J} (url : string) (reply : Reply J) : Py (Z * J) :=
  modify (set_requests (λ l, l ++ [url])) ;;
  match reply with
  | Unreachable why => raise (ConnectionError why)
  | Response status_code json => ret (status_code, json)
  end.

(** ** [ge_tracker.py]: class [GETracker] *)

Definition base_url : string := "https://prices.runescape.wiki/api/v1/osrs".
Definition mapping_url : string := base_url +:+ "/mapping".
Definition latest_url : string := base_url +:+ "/latest".

(** [str(item_id)] *)
Definition str (z : Z) : string := pretty z.

(** [if item_id:] on the result of a lookup: [None] and 0 are false. *)
Definition truthy (item_id : option Z) : option Z :=
  match item_id with
  | Some i => if decide (i = 0) then None else Some i
  | None => None
  end.

Section GetItemId.
(** [str.lower], which Python defines over all of Unicode; the
    development does not depend on which function it is. *)
Variable lower : string → string.

(** The [for item in items] loop of [get_item_id]. *)
Fixpoint get_item_id_loop (catalog : list Catalog.t) (item_name : string) : option Z :=
  match catalog with
  | [] => None
  | item :: rest =>
      if decide (lower (Catalog.name item) = lower item_name)
      then Some (Catalog.id item)
      else get_item_id_loop rest item_name
  end.

Definition get_item_id (reply : Reply (list Catalog.t)) (item_name : string)
    : Py (option Z) :=
  response <- requests_get mapping_url reply ;;
  if decide (response.1 = 200)
  then ret (get_item_id_loop response.2 item_name)
  else ret None.

(** [GETracker.add_item] *)
Definition add_item (reply : Reply (list Catalog.t)) (item_name : string) : Py unit :=
  item_id <- get_item_id reply item_name ;;
  match truthy item_id with
  | Some i =>
      modify (set_items (dict_set item_name i)) ;;
      print ("Added " +:+ item_name +:+ " to tracking list.")
  | None => print ("Could not find item: " +:+ item_name)
  end.
End GetItemId.

(** The [for item_name, item_id in self.items.items()] loop of
    [fetch_prices], with [results] as accumulator. *)
Fixpoint fetch_prices_loop (data : gmap string Latest.t) (its : list (string * Z))
    (results : gmap string Price.t) : Py (gmap string Price.t) :=
  match its with
  | [] => ret results
  | (item_name, item_id) :: rest =>
      match data !! str item_id with
      | Some item_data =>
          fetch_prices_loop data rest
            (<[item_name := Price.Build (Latest.high item_data) (Latest.low item_data)
                                        (Latest.highTime item_data)]> results)
      | None =>
          print ("No data available for " +:+ item_name) ;;
          fetch_prices_loop data rest results
      end
  end.

Definition fetch_prices (reply : Reply (gmap string Latest.t)) : Py (gmap string Price.t) :=
  st <- get_state ;;
  match items st with
  | [] =>
      print "No items to track. Add items using add_item() method." ;;
      ret ∅
  | _ :: _ =>
      response <- requests_get latest_url reply ;;
      if decide (response.1 = 200)
      then fetch_prices_loop response.2 (items st) ∅
      else print "Failed to fetch prices. Please try again later." ;;
           ret ∅
  end.

(** ** [ui_tracker.py]: the table [items] *)

(** [CREATE TABLE IF NOT EXISTS items (...)] on the database file, which
    may already hold the table. *)
Definition initDB (file : option Table) : Table := default (MkTable [] 0) file.

(** The rowid that AUTOINCREMENT gives the next inserted row: one more
    than every rowid in use and every rowid used before. *)
Definition next_rowid (t : Table) : Z :=
  1 + foldr Z.max (sqlite_sequence t) (id <$> rows t).

(** [INSERT OR REPLACE INTO items (name, high_price, low_price,
    last_high_price, last_low_price) VALUES (?, ?, ?, ?, ?)].  The only
    uniqueness constraint of the table is its primary key, so REPLACE
    removes the rows whose [id] equals the new rowid. *)
Definition insert_or_replace (item_name : string)
    (high low last_high last_low : Z) (t : Table) : Table :=
  let i := next_rowid t in
  MkTable (filter (λ r, id r ≠ i) (rows t)
             ++ [MkRow i item_name high low (Some last_high) (Some last_low)])
          i.

(** [UPDATE items SET high_price = ?, low_price = ?, last_high_price = ?,
    last_low_price = ? WHERE id = ?] *)
Definition update_where_id (high low last_high last_low item_id : Z) (t : Table) : Table :=
  MkTable ((λ r, if decide (id r = item_id)
                 then MkRow (id r) (name r) high low (Some last_high) (Some last_low)
                 else r) <$> rows t)
          (sqlite_sequence t).

(** [DELETE FROM items WHERE name = ?] *)
Definition delete_where_name (item_name : string) (t : Table) : Table :=
  MkTable (filter (λ r, name r ≠ item_name) (rows t)) (sqlite_sequence t).

(** [SELECT id, name, high_price, low_price FROM items] *)
Definition select_id_name_high_low (t : Table) : list (Z * string * Z * Z) :=
  (λ r, (id r, name r, high_price r, low_price r)) <$> rows t.

(** ** [ui_tracker.py]: class [OSRSPriceTracker] *)

(** The dict comprehension [{item['name']: item['id'] for item in ...}]:
    a later element of the catalog overwrites an earlier one of the same
    name. *)
Definition name_to_id (catalog : list Catalog.t) : gmap string Z :=
  foldl (λ m item, <[Catalog.name item := Catalog.id item]> m) ∅ catalog.

Definition exn_text (e : Exn) : string :=
  match e with ConnectionError msg => msg end.

Definition fetch_all_items (reply : Reply (list Catalog.t)) : Py (gmap string Z) :=
  try_except
    (response <- requests_get mapping_url reply ;;
     if decide (response.1 = 200)
     then ret (name_to_id response.2)
     else print ("Error fetching items: HTTP " +:+ str response.1) ;;
          ret ∅)
    (λ e, print ("Error fetching items: " +:+ exn_text e) ;;
          ret ∅).

Definition updateItemColor (item : QListWidgetItem) (high_change low_change : Z)
    : QListWidgetItem :=
  let setForeground c :=
    ListItem (role item) (buy item) (buy_change item) (sell item)
             (sell_change item) (Some c) in
  if decide (0 < high_change ∧ 0 < low_change) then setForeground Green
  else if decide (high_change < 0 ∧ low_change < 0) then setForeground Red
  else setForeground Amber.

Definition addItemToList (item_name : string)
    (high_price low_price last_high_price last_low_price : Z) : Py unit :=
  let high_change := high_price - last_high_price in
  let low_change := low_price - last_low_price in
  let item := ListItem item_name high_price high_change low_price low_change None in
  modify (set_tracked_items (λ l, l ++ [updateItemColor item high_change low_change])).

(** The [for i in range(self.tracked_items.count())] loop of
    [updateItemInList]: the first entry of that name is rewritten, and
    the loop breaks. *)
Fixpoint updateItemInList_loop (item_name : string)
    (high_price low_price last_high_price last_low_price : Z)
    (l : list QListWidgetItem) : list QListWidgetItem :=
  match l with
  | [] => []
  | item :: rest =>
      if decide (role item = item_name)
      then
        let high_change := high_price - last_high_price in
        let low_change := low_price - last_low_price in
        let item' :=   (* item.setText(item_text) *)
          ListItem (role item) high_price high_change low_price low_change
                   (foreground item) in
        updateItemColor item' high_change low_change :: rest
      else item :: updateItemInList_loop item_name high_price low_price
                     last_high_price last_low_price rest
  end.

Definition updateItemInList (item_name : string)
    (high_price low_price last_high_price last_low_price : Z) : Py unit :=
  modify (set_tracked_items
            (updateItemInList_loop item_name high_price low_price
               last_high_price last_low_price)).

Definition addSelectedItem (item_name : string) (reply : Reply (gmap string Latest.t))
    : Py unit :=
  st <- get_state ;;
  match truthy (all_items st !! item_name) with
  | Some item_id =>
      modify (set_items (dict_set item_name item_id)) ;;
      prices <- fetch_prices reply ;;
      match prices !! item_name with
      | Some p =>
          let high_price := Price.high p in
          let low_price := Price.low p in
          modify (set_table (insert_or_replace item_name high_price low_price
                                               high_price low_price)) ;;
          addItemToList item_name high_price low_price high_price low_price
      | None => print ("No price data available for " +:+ item_name)
      end
  | None => print ("Could not find item ID for " +:+ item_name)
  end.

(** The [for item_id, item_name, last_high_price, last_low_price in items]
    loop of [refreshPrices], over the rows fetched before the loop. *)
Fixpoint refreshPrices_loop (prices : gmap string Price.t)
    (fetched : list (Z * string * Z * Z)) : Py unit :=
  match fetched with
  | [] => ret tt
  | (item_id, item_name, last_high_price, last_low_price) :: rest =>
      match prices !! item_name with
      | Some p =>
          let high_price := Price.high p in
          let low_price := Price.low p in
          modify (set_table (update_where_id high_price low_price
                               last_high_price last_low_price item_id)) ;;
          updateItemInList item_name high_price low_price
                           last_high_price last_low_price ;;
          refreshPrices_loop prices rest
      | None => refreshPrices_loop prices rest
      end
  end.

Definition refreshPrices (reply : Reply (gmap string Latest.t)) : Py unit :=
  prices <- fetch_prices reply ;;
  st <- get_state ;;
  refreshPrices_loop prices (select_id_name_high_low (table st)).

(** [removeSelectedItem]; [current] is the row of the list's current
    item, if it has one, so that [currentItem()] is the entry there. *)
Definition removeSelectedItem (current : option nat) : Py unit :=
  st <- get_state ;;
  match current ≫= (λ row, (row,.) <$> tracked_items st !! row) with
  | Some (row, current_item) =>
      let item_name := role current_item in
      modify (set_table (delete_where_name item_name)) ;;
      modify (set_tracked_items (delete row)) ;;   (* takeItem(row(current_item)) *)
      modify (set_items (dict_del item_name))
  | None => ret tt
  end.

(** [loadItems]: one list entry per stored row, and one catalog request
    per row to fill [ge_tracker.items]; [replies k] answers the request
    made for row number [k]. *)
Section LoadItems.
Variable lower : string → string.
Variable replies : nat → Reply (list Catalog.t).

Fixpoint loadItems_loop (k : nat) (fetched : list Row) : Py unit :=
  match fetched with
  | [] => ret tt
  | item :: rest =>
      let last_high := default (high_price item) (last_high_price item) in
      let last_low := default (low_price item) (last_low_price item) in
      addItemToList (name item) (high_price item) (low_price item)
                    last_high last_low ;;
      item_id <- get_item_id lower (replies k) (name item) ;;
      match truthy item_id with
      | Some i => modify (set_items (dict_set (name item) i))
      | None => ret tt
      end ;;
      loadItems_loop (S k) rest
  end.

Definition loadItems : Py unit :=
  st <- get_state ;;
  loadItems_loop 0%nat (rows (table st)).
End LoadItems.

(** [OSRSPriceTracker.__init__], from the database file found on disk:
    an empty tracker and list, the table, the stored rows loaded, then
    the catalog fetched once for [all_items]. *)
Definition __init__ (lower : string → string) (file : option Table)
    (replies : nat → Reply (list Catalog.t)) (reply : Reply (list Catalog.t))
    : Py unit :=
  modify (λ st, MkApp [] ∅ (initDB file) [] (stdout st) (requests st)) ;;
  loadItems lower replies ;;
  catalog <- fetch_all_items reply ;;
  modify (set_all_items catalog).

(** ** Notions used by the statements *)

(** The value that [fetch_prices] stores for one entry of the response. *)
Definition price_of (e : Latest.t) : Price.t :=
  Price.Build (Latest.high e) (Latest.low e) (Latest.highTime e).

(** The dict built by the loop of [fetch_prices], as a fold. *)
Definition prices_from (data : gmap string Latest.t) (its : list (string * Z))
    (results : gmap string Price.t) : gmap string Price.t :=
  foldl (λ m kv, match data !! str kv.2 with
                 | Some e => <[kv.1 := price_of e]> m
                 | None => m
                 end) results its.

(** The lines that loop prints, one per tracked name without data. *)
Definition no_data_lines (data : gmap string Latest.t) (its : list (string * Z))
    : list string :=
  omap (λ kv, match data !! str kv.2 with
              | Some _ => None
              | None => Some ("No data available for " +:+ kv.1)
              end) its.

(** What [fetch_prices] returns on a response, what it prints and what it
    requests, as functions of the response and of [ge_tracker.items]. *)
Definition snapshot (status : Z) (data : gmap string Latest.t)
    (its : list (string * Z)) : gmap string Price.t :=
  if decide (status = 200) then prices_from data its ∅ else ∅.

Definition fetch_lines (status : Z) (data : gmap string Latest.t)
    (its : list (string * Z)) : list string :=
  match its with
  | [] => ["No items to track. Add items using add_item() method."]
  | _ :: _ =>
      if decide (status = 200) then no_data_lines data its
      else ["Failed to fetch prices. Please try again later."]
  end.

Definition fetch_requests (its : list (string * Z)) : list string :=
  match its with [] => [] | _ :: _ => [latest_url] end.

Definition after_fetch (status : Z) (data : gmap string Latest.t) (st : App) : App :=
  MkApp (items st) (all_items st) (table st) (tracked_items st)
        (stdout st ++ fetch_lines status data (items st))
        (requests st ++ fetch_requests (items st)).

(** One iteration of the loop of [refreshPrices], as a state change. *)
Definition refresh_step (prices : gmap string Price.t) (st : App)
    (f : Z * string * Z * Z) : App :=
  let '(item_id, item_name, last_high_price, last_low_price) := f in
  match prices !! item_name with
  | Some p =>
      set_tracked_items
        (updateItemInList_loop item_name (Price.high p) (Price.low p)
           last_high_price last_low_price)
        (set_table (update_where_id (Price.high p) (Price.low p)
                      last_high_price last_low_price item_id) st)
  | None => st
  end.

(** What a refresh with these prices makes of one stored row. *)
Definition refresh_row (prices : gmap string Price.t) (r : Row) : Row :=
  match prices !! name r with
  | Some p => MkRow (id r) (name r) (Price.high p) (Price.low p)
                    (Some (high_price r)) (Some (low_price r))
  | None => r
  end.

(** The baseline of a row: the pair the next refresh compares with. *)
Definition baseline (r : Row) : Z * Z := (high_price r, low_price r).

(** The list entry that stands for a name: the first one of that role,
    which is the one [updateItemInList] rewrites. *)
Fixpoint first_entry (item_name : string) (l : list QListWidgetItem)
    : option QListWidgetItem :=
  match l with
  | [] => None
  | item :: rest =>
      if decide (role item = item_name) then Some item
      else first_entry item_name rest
  end.

(** The numbers that the list shows for a name: high, change of high,
    low, change of low. *)
Definition shown (item_name : string) (l : list QListWidgetItem)
    : option (Z * Z * Z * Z) :=
  (λ it, (buy it, buy_change it, sell it, sell_change it))
    <$> first_entry item_name l.

(** The invariants that SQLite, Python's dict and the pairing of
    [addItemToList] with every insertion maintain. *)
Record wf (st : App) : Prop := Wf {
  wf_primary_key : NoDup (id <$> rows (table st));
  wf_dict_keys : NoDup (items st).*1;
  wf_listed : ∀ r, r ∈ rows (table st) →
                   is_Some (first_entry (name r) (tracked_items st))
}.

(** The states of a run: the one [__init__] returns, on a database file
    whose primary key is unique, and those that the three operations
    leave, whether they return or raise. *)
Inductive reachable (lower : string → string) : App → Prop :=
  | reach_init file replies reply st0 st :
      (∀ t, file = Some t → NoDup (id <$> rows t)) →
      __init__ lower file replies reply st0 = (Returned tt, st) →
      reachable lower st
  | reach_add item_name reply st :
      reachable lower st →
      reachable lower (addSelectedItem item_name reply st).2
  | reach_refresh reply st :
      reachable lower st →
      reachable lower (refreshPrices reply st).2
  | reach_remove current st :
      reachable lower st →
      reachable lower (removeSelectedItem current st).2.

(** ** A session with one item

    The states of the running example: the application started on an
    empty database with a two-item catalog, then "Dragon bones" added
    while the snapshot reports 2900 and 2850. *)

(** [str.lower] on ASCII letters, for the concrete sessions. *)
Definition lower_ascii_char (c : ascii) : ascii :=
  let n := N_of_ascii c in
  if decide (65 ≤ n ≤ 90)%N then ascii_of_N (n + 32) else c.

Fixpoint lower_ascii (s : string) : string :=
  match s with
  | EmptyString => EmptyString
  | String c s' => String (lower_ascii_char c) (lower_ascii s')
  end.

Definition catalog0 : list Catalog.t :=
  [Catalog.Build 2 "Cannonball"; Catalog.Build 536 "Dragon bones"].

(** The process before [__init__] has run. *)
Definition fresh : App := MkApp [] ∅ (MkTable [] 0) [] [] [].

Definition started : App :=
  (__init__ lower_ascii None (λ _, Unreachable "") (Response 200 catalog0) fresh).2.

(** A [/latest] body with data for item 536 only. *)
Definition latest536 (high low : Z) : gmap string Latest.t :=
  {[ "536" := Latest.Build high low 1700000000 1700000000 ]}.

Definition seeded : App :=
  (addSelectedItem "Dragon bones" (Response 200 (latest536 2900 2850)) started).2.

(** ** [format_price] and [format_change]

    The two static methods on integer arguments, which is what
    [addSelectedItem] passes on from the JSON body. *)

(** The grouping of [f"{n:,}"], on the digits least significant first:
    a comma after every third digit that has a digit behind it. *)
Fixpoint group_thousands (digits : list ascii) : list ascii :=
  match digits with
  | a :: b :: c :: rest =>
      match rest with
      | [] => digits
      | _ :: _ => a :: b :: c :: ","%char :: group_thousands rest
      end
  | _ => digits
  end.

Definition with_commas (digits : string) : string :=
  String.string_of_list_ascii
    (reverse (group_thousands (reverse (String.list_ascii_of_string digits)))).

(** [f"{price:,}"] *)
Definition format_price (price : Z) : string :=
  (if decide (price < 0) then "-" else "") +:+ with_commas (str (Z.abs price)).

Definition format_change (change : Z) : string :=
  if decide (0 < change) then "+" +:+ format_price change
  else if decide (change < 0) then format_price change
  else "0".

(** Reading a formatted number back: the text without its commas. *)
Definition remove_commas (s : string) : string :=
  String.string_of_list_ascii (filter (λ c, c ≠ ","%char) (String.list_ascii_of_string s)).

(** The list entry that [loadItems] makes of a stored row. *)
Definition row_entry (r : Row) : QListWidgetItem :=
  let last_high := default (high_price r) (last_high_price r) in
  let last_low := default (low_price r) (last_low_price r) in
  updateItemColor
    (ListItem (name r) (high_price r) (high_price r - last_high)
              (low_price r) (low_price r - last_low) None)
    (high_price r - last_high) (low_price r - last_low).

(** Every stored row is tracked, under the identifier that the catalog
    loaded at start gives its name. *)
Definition rows_resolved (st : App) : Prop :=
  ∀ r, r ∈ rows (table st) →
       ∃ i, all_items st !! name r = Some i ∧ i ≠ 0 ∧
            dict_get (items st) (name r) = Some i.

(** ** The price source client *)

Ltac py :=
  unfold print, requests_get, try_except;
  unfold bind, ret, raise, modify, get_state;
  cbn [fst snd].

Lemma set_stdout_nil st : set_stdout (λ out, out ++ []) st = st.
Proof. destruct st; unfold set_stdout; simpl. by rewrite app_nil_r. Qed.

Lemma fetch_prices_loop_eq data its results st :
  fetch_prices_loop data its results st =
  (Returned (prices_from data its results),
   set_stdout (λ out, out ++ no_data_lines data its) st).
Proof.
  revert results st. induction its as [|[n i] its IH]; intros results st.
  - simpl. py. by rewrite set_stdout_nil.
  - simpl. unfold prices_from, no_data_lines. simpl.
    destruct (data !! str i) as [e|] eqn:He.
    + by rewrite IH.
    + py. rewrite IH. f_equal. destruct st; unfold set_stdout; simpl.
      by rewrite <- app_assoc.
Qed.

Lemma fetch_prices_response status data st :
  fetch_prices (Response status data) st =
  (Returned (snapshot status data (items st)), after_fetch status data st).
Proof.
  unfold fetch_prices, snapshot, after_fetch, fetch_lines, fetch_requests.
  py. destruct (items st) as [|kv its] eqn:Hits.
  - py. unfold set_stdout; simpl. rewrite Hits.
    destruct (decide (status = 200)); by rewrite app_nil_r.
  - py. destruct (decide (status = 200)).
    + rewrite fetch_prices_loop_eq. unfold set_stdout, set_requests; simpl.
      by rewrite Hits.
    + py. unfold set_stdout, set_requests; simpl. by rewrite Hits.
Qed.

Lemma fetch_prices_unreachable why st :
  items st ≠ [] →
  fetch_prices (Unreachable why) st =
  (Raised (ConnectionError why), set_requests (λ l, l ++ [latest_url]) st).
Proof.
  intros Hne. unfold fetch_prices. py.
  by destruct (items st) as [|kv its] eqn:Hits.
Qed.

Lemma dict_get_None d k : k ∉ d.*1 → dict_get d k = None.
Proof.
  induction d as [|[k' v] d IH]; [done|]. simpl. intros Hk.
  apply not_elem_of_cons in Hk as [? ?].
  destruct (decide (k' = k)); [congruence|]. by apply IH.
Qed.

Lemma prices_from_lookup data its results n :
  NoDup its.*1 →
  prices_from data its results !! n =
  match dict_get its n ≫= (λ i, data !! str i) with
  | Some e => Some (price_of e)
  | None => results !! n
  end.
Proof.
  revert results. induction its as [|[k i] its IH]; intros results Hnd.
  - done.
  - apply NoDup_cons in Hnd as [Hk Hnd]. simpl in Hk.
    change (prices_from data ((k, i) :: its) results)
      with (prices_from data its
              match data !! str i with
              | Some e => <[k := price_of e]> results
              | None => results
              end).
    rewrite IH by done. simpl. destruct (decide (k = n)) as [->|Hkn].
    + rewrite (dict_get_None its n) by done. simpl.
      destruct (data !! str i); [by rewrite lookup_insert_eq|done].
    + destruct (dict_get its n ≫= _); [done|].
      destruct (data !! str i); [by rewrite lookup_insert_ne|done].
Qed.

Lemma snapshot_lookup status data its n :
  NoDup its.*1 →
  snapshot status data its !! n =
  if decide (status = 200)
  then price_of <$> (dict_get its n ≫= (λ i, data !! str i))
  else None.
Proof.
  intros Hnd. unfold snapshot. destruct (decide (status = 200)); [|done].
  rewrite prices_from_lookup by done.
  by destruct (dict_get its n ≫= _).
Qed.

(** ** The list widget *)

Lemma first_entry_is_Some n l : is_Some (first_entry n l) ↔ n ∈ role <$> l.
Proof.
  induction l as [|it l IH]; csimpl.
  - split; [by intros [? ?]|by intros ?%elem_of_nil].
  - destruct (decide (role it = n)) as [<-|Hne].
    + split; [intros _; apply elem_of_cons; by left|by eexists].
    + rewrite IH, elem_of_cons. split; [by right|by intros [?|?]].
Qed.

Lemma first_entry_role n l it : first_entry n l = Some it → role it = n.
Proof.
  induction l as [|x l IH]; csimpl; [done|].
  destruct (decide (role x = n)); [by intros [= <-]|done].
Qed.

Lemma updateItemColor_fields item hc lc :
  let item' := updateItemColor item hc lc in
  role item' = role item ∧ buy item' = buy item ∧
  buy_change item' = buy_change item ∧ sell item' = sell item ∧
  sell_change item' = sell_change item.
Proof. unfold updateItemColor. by repeat case_decide. Qed.

Lemma updateItemInList_roles n h lo lh ll l :
  role <$> updateItemInList_loop n h lo lh ll l = role <$> l.
Proof.
  induction l as [|it l IH]; csimpl; [done|].
  destruct (decide (role it = n)); csimpl; [|by rewrite IH].
  f_equal. by destruct (updateItemColor_fields
    (ListItem (role it) h (h - lh) lo (lo - ll) (foreground it)) (h - lh) (lo - ll))
    as (-> & _).
Qed.

Lemma updateItemInList_other n m h lo lh ll l :
  n ≠ m →
  first_entry m (updateItemInList_loop n h lo lh ll l) = first_entry m l.
Proof.
  intros Hnm. induction l as [|it l IH]; csimpl; [done|].
  destruct (decide (role it = n)) as [Hn|Hn]; csimpl.
  - destruct (updateItemColor_fields
      (ListItem (role it) h (h - lh) lo (lo - ll) (foreground it)) (h - lh) (lo - ll))
      as (-> & _). csimpl.
    destruct (decide (role it = m)); [congruence|done].
  - destruct (decide (role it = m)); [done|apply IH].
Qed.

Lemma updateItemInList_first n h lo lh ll l :
  is_Some (first_entry n l) →
  ∃ fg, first_entry n (updateItemInList_loop n h lo lh ll l) =
        Some (updateItemColor (ListItem n h (h - lh) lo (lo - ll) fg)
                (h - lh) (lo - ll)).
Proof.
  induction l as [|it l IH]; [by intros [? ?]|].
  cbn [first_entry updateItemInList_loop].
  destruct (decide (role it = n)) as [Hn|Hn].
  - intros _. exists (foreground it). rewrite Hn.
    cbn [first_entry].
    destruct (updateItemColor_fields
      (ListItem n h (h - lh) lo (lo - ll) (foreground it)) (h - lh) (lo - ll))
      as (Hr & _).
    by rewrite decide_True.
  - cbn [first_entry]. by rewrite decide_False.
Qed.

Lemma updateItemInList_shown n h lo lh ll l :
  is_Some (first_entry n l) →
  shown n (updateItemInList_loop n h lo lh ll l) = Some (h, h - lh, lo, lo - ll).
Proof.
  intros Hn. destruct (updateItemInList_first n h lo lh ll l Hn) as [fg Hfg].
  unfold shown. rewrite Hfg. cbn [fmap option_fmap option_map].
  by destruct (updateItemColor_fields
      (ListItem n h (h - lh) lo (lo - ll) fg) (h - lh) (lo - ll))
      as (_ & -> & -> & -> & ->).
Qed.

(** ** The refresh loop *)

Lemma refreshPrices_loop_eq prices fetched st :
  refreshPrices_loop prices fetched st =
  (Returned tt, foldl (refresh_step prices) st fetched).
Proof.
  revert st. induction fetched as [|[[[i n] lh] ll] fs IH]; intros st; csimpl.
  - done.
  - destruct (prices !! n) as [p|]; [|apply IH].
    unfold updateItemInList. py. apply IH.
Qed.

Lemma refreshPrices_response status data st :
  refreshPrices (Response status data) st =
  (Returned tt,
   foldl (refresh_step (snapshot status data (items st)))
         (after_fetch status data st)
         (select_id_name_high_low (table st))).
Proof.
  unfold refreshPrices. unfold bind at 1. rewrite fetch_prices_response.
  py. by rewrite refreshPrices_loop_eq.
Qed.

Lemma refresh_loop_frame prices fetched st :
  let st' := foldl (refresh_step prices) st fetched in
  items st' = items st ∧ all_items st' = all_items st ∧
  stdout st' = stdout st ∧ requests st' = requests st ∧
  sqlite_sequence (table st') = sqlite_sequence (table st) ∧
  role <$> tracked_items st' = role <$> tracked_items st.
Proof.
  revert st. induction fetched as [|[[[i n] lh] ll] fs IH]; intros st; csimpl.
  - done.
  - destruct (prices !! n) as [p|]; [|apply IH].
    destruct (IH (set_tracked_items
        (updateItemInList_loop n (Price.high p) (Price.low p) lh ll)
        (set_table (update_where_id (Price.high p) (Price.low p) lh ll i) st)))
      as (-> & -> & -> & -> & -> & ->).
    csimpl. by rewrite updateItemInList_roles.
Qed.

Lemma update_where_id_absent h lo lh ll i (l : list Row) :
  i ∉ id <$> l →
  (λ r, if decide (id r = i)
        then MkRow (id r) (name r) h lo (Some lh) (Some ll) else r) <$> l = l.
Proof.
  induction l as [|r l IH]; csimpl; [done|]. intros Hi.
  apply not_elem_of_cons in Hi as [Hr Hl].
  rewrite decide_False by done. by rewrite IH.
Qed.

Lemma refresh_row_id prices r : id (refresh_row prices r) = id r.
Proof. unfold refresh_row. by destruct (prices !! name r). Qed.

Lemma refresh_row_name prices r : name (refresh_row prices r) = name r.
Proof. unfold refresh_row. by destruct (prices !! name r). Qed.

Lemma refresh_row_ids prices (l : list Row) :
  id <$> (refresh_row prices <$> l) = id <$> l.
Proof.
  induction l as [|r l IH]; csimpl; [done|].
  by rewrite refresh_row_id, IH.
Qed.

Lemma refresh_row_names prices (l : list Row) :
  name <$> (refresh_row prices <$> l) = name <$> l.
Proof.
  induction l as [|r l IH]; csimpl; [done|].
  by rewrite refresh_row_name, IH.
Qed.

Lemma refresh_loop_rows prices pre l st :
  rows (table st) = (refresh_row prices <$> pre) ++ l →
  NoDup (id <$> pre ++ l) →
  rows (table (foldl (refresh_step prices) st
                 ((λ r, (id r, name r, high_price r, low_price r)) <$> l))) =
  refresh_row prices <$> pre ++ l.
Proof.
  revert pre st. induction l as [|r l IH]; intros pre st Hrows Hnd; csimpl.
  - by rewrite Hrows, !app_nil_r.
  - assert (refresh_row prices <$> pre ++ r :: l
            = refresh_row prices <$> (pre ++ [r]) ++ l) as ->.
    { by rewrite <- app_assoc. }
    assert (NoDup (id <$> (pre ++ [r]) ++ l)) as Hnd'.
    { by rewrite <- app_assoc. }
    apply IH; [|done].
    rewrite fmap_app in Hnd. apply NoDup_app in Hnd as (_ & Hpre & Hnd).
    apply NoDup_cons in Hnd as [Hl _]. csimpl in Hpre.
    assert (id r ∉ id <$> pre) as Hpre'.
    { intros Hin. apply (Hpre _ Hin). apply elem_of_cons; by left. }
    rewrite fmap_app. csimpl. rewrite <- app_assoc. csimpl.
    unfold refresh_row at 2. destruct (prices !! name r) as [p|]; [|done].
    csimpl. rewrite Hrows, fmap_app. csimpl. rewrite decide_True by done.
    rewrite !update_where_id_absent; [done|done|].
    by rewrite refresh_row_ids.
Qed.

Lemma refresh_rows prices st :
  NoDup (id <$> rows (table st)) →
  rows (table (foldl (refresh_step prices) st
                 (select_id_name_high_low (table st)))) =
  refresh_row prices <$> rows (table st).
Proof. intros Hnd. by apply (refresh_loop_rows prices [] (rows (table st)) st). Qed.

Lemma refresh_loop_first_entry prices n (l : list Row) st :
  (∀ r, r ∈ l → name r = n → prices !! n = None) →
  first_entry n (tracked_items
    (foldl (refresh_step prices) st
       ((λ r, (id r, name r, high_price r, low_price r)) <$> l))) =
  first_entry n (tracked_items st).
Proof.
  revert st. induction l as [|r l IH]; intros st Hl; csimpl; [done|].
  rewrite IH by (intros r' Hr'; apply Hl; apply elem_of_cons; by right).
  destruct (prices !! name r) as [p|] eqn:Hp; [|done]. csimpl.
  apply updateItemInList_other. intros Hn.
  rewrite Hn, (Hl r) in Hp; [done|apply elem_of_cons; by left|done].
Qed.

Lemma refresh_loop_shown prices (l1 l2 : list Row) r p st :
  prices !! name r = Some p →
  Forall (λ r', name r' ≠ name r) l2 →
  is_Some (first_entry (name r) (tracked_items st)) →
  shown (name r) (tracked_items
    (foldl (refresh_step prices) st
       ((λ r, (id r, name r, high_price r, low_price r)) <$> l1 ++ r :: l2))) =
  Some (Price.high p, Price.high p - high_price r,
        Price.low p, Price.low p - low_price r).
Proof.
  intros Hp Hl2 Hlisted. rewrite fmap_app, foldl_app. csimpl.
  unfold shown. rewrite refresh_loop_first_entry.
  2:{ intros r' Hr' Hn. by destruct (proj1 (Forall_forall _ _) Hl2 r' Hr'). }
  rewrite Hp. csimpl. apply updateItemInList_shown.
  apply first_entry_is_Some.
  destruct (refresh_loop_frame prices
    ((λ r, (id r, name r, high_price r, low_price r)) <$> l1) st)
    as (_ & _ & _ & _ & _ & ->).
  by apply first_entry_is_Some.
Qed.

(** A refresh keeps the invariants. *)
Lemma refresh_loop_wf prices st :
  wf st →
  wf (foldl (refresh_step prices) st (select_id_name_high_low (table st))).
Proof.
  intros [Hpk Hdict Hlisted].
  destruct (refresh_loop_frame prices (select_id_name_high_low (table st)) st)
    as (Hit & _ & _ & _ & _ & Hroles).
  split.
  - by rewrite refresh_rows, refresh_row_ids.
  - by rewrite Hit.
  - intros r'. rewrite refresh_rows by done.
    intros (r & -> & Hr)%list_elem_of_fmap.
    rewrite refresh_row_name. apply first_entry_is_Some. rewrite Hroles.
    apply first_entry_is_Some. by apply Hlisted.
Qed.

Lemma after_fetch_wf status data st : wf st → wf (after_fetch status data st).
Proof. by intros [Hpk Hdict Hlisted]. Qed.

(** ** Refresh: deltas and the new baseline *)

(** C1. On a 200 response, every stored row whose name the tracker maps
    to an identifier present in the response is rewritten in place: its
    high and low become the fetched ones and the previous pair moves to
    the last_* columns, so the fetched pair is the baseline of the next
    refresh.  The list shows for that name the fetched prices and the
    differences to the previous baseline (when several rows share the
    name, the differences of the last of them).  In the running example a
    refresh reporting 3000 and 2800 after a seed of 2900 and 2850 shows
    +100 and -50 and stores the baseline (3000, 2800). *)
Theorem refresh_deltas_and_baseline :
  (∀ st data k r item_id e,
     wf st →
     rows (table st) !! k = Some r →
     dict_get (items st) (name r) = Some item_id →
     data !! str item_id = Some e →
     ∃ st',
       refreshPrices (Response 200 data) st = (Returned tt, st') ∧
       rows (table st') !! k =
         Some (MkRow (id r) (name r) (Latest.high e) (Latest.low e)
                     (Some (high_price r)) (Some (low_price r))) ∧
       (Forall (λ r', name r' ≠ name r) (drop (S k) (rows (table st))) →
        shown (name r) (tracked_items st') =
          Some (Latest.high e, Latest.high e - high_price r,
                Latest.low e, Latest.low e - low_price r))) ∧
  (baseline <$> rows (table seeded) = [(2900, 2850)] ∧
   ∃ st',
     refreshPrices (Response 200 (latest536 3000 2800)) seeded = (Returned tt, st') ∧
     shown "Dragon bones" (tracked_items st') = Some (3000, 100, 2800, -50) ∧
     baseline <$> rows (table st') = [(3000, 2800)]).
Proof.
  split.
  - intros st data k r item_id e Hwf Hk Hid He.
    pose proof Hwf as [Hpk Hdict Hlisted].
    eexists. split; [apply refreshPrices_response|].
    assert (snapshot 200 data (items st) !! name r = Some (price_of e)) as Hp.
    { rewrite snapshot_lookup by done. rewrite decide_True by done.
      rewrite Hid. csimpl. by rewrite He. }
    split.
    + rewrite (refresh_rows _ (after_fetch 200 data st)) by done.
      change (table (after_fetch 200 data st)) with (table st).
      rewrite list_lookup_fmap, Hk. csimpl. unfold refresh_row. by rewrite Hp.
    + intros Hlast.
      change (table (after_fetch 200 data st)) with (table st).
      unfold select_id_name_high_low.
      rewrite <- (take_drop_middle _ _ _ Hk) at 1.
      rewrite (refresh_loop_shown _ _ _ r (price_of e)); [done|done|done|].
      apply Hlisted. by eapply list_elem_of_lookup_2.
  - split; [by vm_compute|].
    eexists. split; [by vm_compute|]. split; by vm_compute.
Qed.

Lemma seeded_wf : wf seeded.
Proof.
  split.
  - vm_compute. apply NoDup_singleton.
  - vm_compute. apply NoDup_singleton.
  - intros r Hr. vm_compute in Hr. apply list_elem_of_singleton in Hr as ->.
    vm_compute. by eexists.
Defined.

Lemma refresh_deltas_and_baseline_witness :
  ∃ st',
    refreshPrices (Response 200 (latest536 3000 2800)) seeded = (Returned tt, st') ∧
    rows (table st') !! 0%nat =
      Some (MkRow 1 "Dragon bones" 3000 2800 (Some 2900) (Some 2850)) ∧
    (Forall (λ r', name r' ≠ "Dragon bones") [] →
     shown "Dragon bones" (tracked_items st') =
       Some (3000, 3000 - 2900, 2800, 2800 - 2850)).
Proof.
  apply (proj1 refresh_deltas_and_baseline seeded (latest536 3000 2800) 0%nat
           (MkRow 1 "Dragon bones" 2900 2850 (Some 2900) (Some 2850)) 536
           (Latest.Build 3000 2800 1700000000 1700000000)).
  - apply seeded_wf.
  - by vm_compute.
  - by vm_compute.
  - by vm_compute.
Defined.

(** ** Classification of a change *)

(** C7. The colour is a total function of the two changes: green
    (improving) exactly when both are positive, red (declining) exactly
    when both are negative, amber (mixed) in every other case, that is
    when one of them is zero or their signs disagree. *)
Theorem updateItemColor_classifies item high_change low_change :
  (foreground (updateItemColor item high_change low_change) = Some Green
     ↔ high_change > 0 ∧ low_change > 0) ∧
  (foreground (updateItemColor item high_change low_change) = Some Red
     ↔ high_change < 0 ∧ low_change < 0) ∧
  (foreground (updateItemColor item high_change low_change) = Some Amber
     ↔ ¬ (high_change > 0 ∧ low_change > 0) ∧
       ¬ (high_change < 0 ∧ low_change < 0)) ∧
  (foreground (updateItemColor item high_change low_change) = Some Amber
     ↔ high_change = 0 ∨ low_change = 0 ∨
       (high_change > 0 ∧ low_change < 0) ∨
       (high_change < 0 ∧ low_change > 0)).
Proof.
  unfold updateItemColor.
  destruct (decide (0 < high_change ∧ 0 < low_change)) as [Hpos|Hpos];
    [|destruct (decide (high_change < 0 ∧ low_change < 0)) as [Hneg|Hneg]];
    cbn [foreground];
    (split; [|split; [|split]]); split; intros H;
    try discriminate H; try reflexivity; try lia; exfalso; lia.
Qed.

(** ** Nothing tracked *)

Lemma refresh_loop_no_prices fetched st :
  foldl (refresh_step ∅) st fetched = st.
Proof.
  induction fetched as [|[[[i n] lh] ll] fs IH]; csimpl; [done|].
  by rewrite lookup_empty.
Qed.

Lemma fetch_prices_nothing_tracked_aux reply st :
  items st = [] →
  let st' :=
    set_stdout
      (λ out, out ++ ["No items to track. Add items using add_item() method."])
      st in
  fetch_prices reply st = (Returned ∅, st') ∧
  refreshPrices reply st = (Returned tt, st').
Proof.
  intros Hempty st'.
  assert (fetch_prices reply st = (Returned ∅, st')) as Hfetch.
  { unfold fetch_prices. py. by rewrite Hempty. }
  split; [done|].
  unfold refreshPrices. unfold bind at 1. rewrite Hfetch. py.
  by rewrite refreshPrices_loop_eq, refresh_loop_no_prices.
Qed.

(** C10. With an empty [ge_tracker.items], [fetch_prices] returns the
    empty dict whatever the remote end would do, and requests nothing;
    a refresh then changes neither the table, nor the list, nor the
    tracker, and requests nothing either.  Both print one line. *)
Theorem fetch_prices_nothing_tracked reply st :
  items st = [] →
  let st' :=
    set_stdout
      (λ out, out ++ ["No items to track. Add items using add_item() method."])
      st in
  fetch_prices reply st = (Returned ∅, st') ∧
  refreshPrices reply st = (Returned tt, st') ∧
  requests st' = requests st ∧ table st' = table st ∧
  tracked_items st' = tracked_items st ∧ items st' = items st.
Proof.
  intros Hempty st'.
  destruct (fetch_prices_nothing_tracked_aux reply st Hempty) as [Hfetch Hrefresh].
  by repeat split.
Qed.

Lemma fetch_prices_nothing_tracked_witness :
  fetch_prices (Unreachable "no route to host") started =
    (Returned ∅,
     set_stdout
       (λ out, out ++ ["No items to track. Add items using add_item() method."])
       started) ∧
  requests (refreshPrices (Unreachable "no route to host") started).2 =
    requests started.
Proof.
  pose proof (fetch_prices_nothing_tracked
                (Unreachable "no route to host") started eq_refl)
    as (Hfetch & Hrefresh & Hreq & _).
  split; [exact Hfetch|]. rewrite Hrefresh. exact Hreq.
Defined.

(** ** Rows without data in a refresh *)

Lemma dict_get_elem_of d k v : dict_get d k = Some v → (k, v) ∈ d.
Proof.
  induction d as [|[k' v'] d IH]; csimpl; [done|].
  destruct (decide (k' = k)) as [->|Hne].
  - intros [= ->]. apply elem_of_cons; by left.
  - intros Hd. apply elem_of_cons; right. by apply IH.
Qed.

Lemma no_data_lines_elem_of data its n i :
  dict_get its n = Some i → data !! str i = None →
  ("No data available for " +:+ n) ∈ no_data_lines data its.
Proof.
  intros Hn Hi. apply list_elem_of_omap. exists (n, i).
  split; [by apply dict_get_elem_of|]. csimpl. by rewrite Hi.
Qed.

(** C5, as the code has it.  A stored row whose name gets no price in a
    refresh (the response is not a 200, or the tracker has no identifier
    for the name, or the response has no data for the identifier) stays
    as it is, no row is deleted, and the list entry of that name is not
    touched: nothing marks it.  What is printed is [fetch_lines]: on a 200
    response one "No data available for ..." line per tracked name
    without data, on any other response the one general line. *)
Theorem refresh_keeps_rows_without_data st status data k r :
  wf st →
  rows (table st) !! k = Some r →
  (status = 200 →
   dict_get (items st) (name r) ≫= (λ i, data !! str i) = None) →
  ∃ st',
    refreshPrices (Response status data) st = (Returned tt, st') ∧
    rows (table st') !! k = Some r ∧
    id <$> rows (table st') = id <$> rows (table st) ∧
    first_entry (name r) (tracked_items st') =
      first_entry (name r) (tracked_items st) ∧
    stdout st' = stdout st ++ fetch_lines status data (items st) ∧
    (status = 200 → ∀ i, dict_get (items st) (name r) = Some i →
       ("No data available for " +:+ name r)
         ∈ fetch_lines status data (items st)) ∧
    (status ≠ 200 → items st ≠ [] →
       fetch_lines status data (items st) =
         ["Failed to fetch prices. Please try again later."]).
Proof.
  intros Hwf Hk Habsent. pose proof Hwf as [Hpk Hdict Hlisted].
  eexists. split; [apply refreshPrices_response|].
  assert (snapshot status data (items st) !! name r = None) as Hp.
  { rewrite snapshot_lookup by done.
    destruct (decide (status = 200)) as [H200|]; [|done].
    by rewrite (Habsent H200). }
  destruct (refresh_loop_frame (snapshot status data (items st))
              (select_id_name_high_low (table st)) (after_fetch status data st))
    as (_ & _ & Hout & _).
  repeat split.
  - rewrite (refresh_rows _ (after_fetch status data st)) by done.
    change (table (after_fetch status data st)) with (table st).
    rewrite list_lookup_fmap, Hk. csimpl. unfold refresh_row. by rewrite Hp.
  - rewrite (refresh_rows _ (after_fetch status data st)) by done.
    apply refresh_row_ids.
  - unfold select_id_name_high_low.
    by rewrite refresh_loop_first_entry.
  - by rewrite Hout.
  - intros H200 i Hi. unfold fetch_lines.
    destruct (items st) as [|kv its] eqn:Hits; [done|].
    rewrite decide_True by done. rewrite <- Hits in *.
    apply (no_data_lines_elem_of _ _ _ i); [done|].
    specialize (Habsent H200). by rewrite Hi in Habsent.
  - intros Hstatus Hne. unfold fetch_lines.
    destruct (items st); [done|]. by rewrite decide_False.
Qed.

Lemma refresh_keeps_rows_without_data_witness :
  ∃ st',
    refreshPrices (Response 200 ∅) seeded = (Returned tt, st') ∧
    rows (table st') !! 0%nat =
      Some (MkRow 1 "Dragon bones" 2900 2850 (Some 2900) (Some 2850)) ∧
    stdout st' = ["No data available for Dragon bones"].
Proof.
  destruct (refresh_keeps_rows_without_data seeded 200 ∅ 0%nat
              (MkRow 1 "Dragon bones" 2900 2850 (Some 2900) (Some 2850)))
    as (st' & Hrun & Hrow & _ & _ & Hout & _).
  - apply seeded_wf.
  - by vm_compute.
  - intros _. by vm_compute.
  - exists st'. split; [exact Hrun|]. split; [exact Hrow|exact Hout].
Defined.

(** C5 as stated fails where the whole fetch fails: after a 500 response
    the tracked item keeps its row and its list entry, and the only line
    printed is the general one; nothing reports the item. *)
Lemma refresh_failed_fetch_reports_no_item :
  name <$> rows (table seeded) = ["Dragon bones"] ∧
  ∃ st',
    refreshPrices (Response 500 ∅) seeded = (Returned tt, st') ∧
    rows (table st') = rows (table seeded) ∧
    tracked_items st' = tracked_items seeded ∧
    stdout st' = ["Failed to fetch prices. Please try again later."] ∧
    "No data available for Dragon bones" ∉ stdout st'.
Proof.
  split; [by vm_compute|]. eexists.
  split; [by vm_compute|]. repeat split; try by vm_compute.
  cbn [stdout]. by intros [=]%list_elem_of_singleton.
Qed.

(** ** A second refresh with the same data *)

Lemma last_named n (l : list Row) :
  n ∈ name <$> l →
  ∃ l1 r l2, l = l1 ++ r :: l2 ∧ name r = n ∧
             Forall (λ r', name r' ≠ name r) l2.
Proof.
  induction l as [|x l IH]; csimpl; [by intros ?%elem_of_nil|].
  intros Hn. destruct (decide (n ∈ name <$> l)) as [Hl|Hl].
  - destruct (IH Hl) as (l1 & r & l2 & -> & Hr & Hl2).
    by exists (x :: l1), r, l2.
  - apply elem_of_cons in Hn as [->|Hn]; [|done].
    exists [], x, l. repeat split. apply Forall_forall. intros r' Hr' Heq.
    apply Hl. rewrite <- Heq. by apply list_elem_of_fmap_2.
Qed.

Lemma refresh_row_baseline prices r :
  baseline (refresh_row prices (refresh_row prices r)) =
  baseline (refresh_row prices r).
Proof.
  unfold refresh_row at 1. rewrite refresh_row_name.
  unfold refresh_row. by destruct (prices !! name r).
Qed.

(** C6. A refresh followed by a second one that gets the same response:
    the second leaves every baseline as the first stored it, and the list
    then shows a change of 0 and 0 for every stored item that has data in
    the response. *)
Theorem refresh_twice_same_data st status data st1 :
  wf st →
  refreshPrices (Response status data) st = (Returned tt, st1) →
  ∃ st2,
    refreshPrices (Response status data) st1 = (Returned tt, st2) ∧
    baseline <$> rows (table st2) = baseline <$> rows (table st1) ∧
    id <$> rows (table st2) = id <$> rows (table st1) ∧
    (∀ r item_id e,
       r ∈ rows (table st) →
       status = 200 →
       dict_get (items st) (name r) = Some item_id →
       data !! str item_id = Some e →
       shown (name r) (tracked_items st2) =
         Some (Latest.high e, 0, Latest.low e, 0)).
Proof.
  intros Hwf. rewrite refreshPrices_response. intros [= <-].
  set (prices := snapshot status data (items st)).
  set (st1 := foldl (refresh_step prices) (after_fetch status data st)
                (select_id_name_high_low (table st))).
  assert (wf st1) as Hwf1.
  { apply (refresh_loop_wf prices (after_fetch status data st)).
    by apply after_fetch_wf. }
  assert (items st1 = items st) as Hitems.
  { unfold st1.
    by destruct (refresh_loop_frame prices (select_id_name_high_low (table st))
                   (after_fetch status data st)) as (-> & _). }
  assert (rows (table st1) = refresh_row prices <$> rows (table st)) as Hrows1.
  { apply (refresh_rows prices (after_fetch status data st)). apply Hwf. }
  eexists. split; [apply refreshPrices_response|].
  rewrite Hitems. fold prices.
  assert (rows (table (foldl (refresh_step prices) (after_fetch status data st1)
                         (select_id_name_high_low (table st1))))
          = refresh_row prices <$> rows (table st1)) as Hrows2.
  { apply (refresh_rows prices (after_fetch status data st1)). apply Hwf1. }
  split; [|split].
  - rewrite Hrows2, Hrows1, <- !list_fmap_compose.
    apply list_fmap_ext. intros _ r _. apply refresh_row_baseline.
  - by rewrite Hrows2, refresh_row_ids.
  - intros r item_id e Hr H200 Hid He.
    assert (prices !! name r = Some (price_of e)) as Hp.
    { unfold prices. rewrite snapshot_lookup by apply Hwf.
      rewrite decide_True by done. rewrite Hid. csimpl. by rewrite He. }
    destruct (last_named (name r) (rows (table st1)))
      as (l1 & r1 & l2 & Hsplit & Hname & Hl2).
    { rewrite Hrows1, refresh_row_names. by apply list_elem_of_fmap_2. }
    assert (r1 ∈ rows (table st1)) as Hr1.
    { rewrite Hsplit. apply elem_of_app; right. apply elem_of_cons; by left. }
    assert (baseline r1 = (Latest.high e, Latest.low e)) as [= Hh Hl].
    { rewrite Hrows1 in Hr1.
      apply list_elem_of_fmap in Hr1 as (r0 & -> & _).
      rewrite refresh_row_name in Hname. unfold refresh_row.
      by rewrite Hname, Hp. }
    change (table (after_fetch status data st1)) with (table st1).
    unfold select_id_name_high_low. rewrite Hsplit, <- Hname.
    rewrite (refresh_loop_shown prices l1 l2 r1 (price_of e)).
    + csimpl. rewrite Hh, Hl. by rewrite !Z.sub_diag.
    + by rewrite Hname.
    + done.
    + by apply (wf_listed _ Hwf1).
Qed.

Lemma refresh_twice_same_data_witness :
  ∃ st2,
    refreshPrices (Response 200 (latest536 3000 2800))
      (refreshPrices (Response 200 (latest536 3000 2800)) seeded).2
      = (Returned tt, st2) ∧
    baseline <$> rows (table st2) = [(3000, 2800)] ∧
    shown "Dragon bones" (tracked_items st2) = Some (3000, 0, 2800, 0).
Proof.
  destruct (refresh_twice_same_data seeded 200 (latest536 3000 2800)
              (refreshPrices (Response 200 (latest536 3000 2800)) seeded).2)
    as (st2 & Hrun & Hbase & _ & Hshown).
  - apply seeded_wf.
  - by vm_compute.
  - exists st2. split; [exact Hrun|]. split.
    + rewrite Hbase. by vm_compute.
    + apply (Hshown (MkRow 1 "Dragon bones" 2900 2850 (Some 2900) (Some 2850))
               536 (Latest.Build 3000 2800 1700000000 1700000000)).
      * vm_compute. apply elem_of_cons; by left.
      * done.
      * by vm_compute.
      * by vm_compute.
Defined.

(** ** Removing an item *)

Lemma filter_all {A} (P : A → Prop) `{∀ x, Decision (P x)} (l : list A) :
  Forall P l → filter P l = l.
Proof.
  induction 1 as [|x l Hx Hl IH]; [done|].
  by rewrite filter_cons_True, IH.
Qed.

Lemma dict_get_dict_del_eq k d : dict_get (dict_del k d) k = None.
Proof.
  apply dict_get_None. unfold dict_del.
  intros ([k' v] & Hk & [Hne _]%list_elem_of_filter)%list_elem_of_fmap.
  by subst.
Qed.

Lemma dict_get_dict_del_ne k n d :
  n ≠ k → dict_get (dict_del k d) n = dict_get d n.
Proof.
  intros Hne. unfold dict_del. induction d as [|[k' v] d IH]; [done|].
  destruct (decide (k' = k)) as [->|Hk].
  - rewrite filter_cons_False by (csimpl; by intros ?). csimpl.
    by rewrite decide_False.
  - rewrite filter_cons_True by done. csimpl. by rewrite IH.
Qed.

Lemma dict_del_absent k d : dict_get d k = None → dict_del k d = d.
Proof.
  intros Hk. apply filter_all. apply Forall_forall. intros [k' v] Hin Heq.
  csimpl in Heq. subst k'. induction d as [|[k'' v''] d IH].
  - by apply elem_of_nil in Hin.
  - csimpl in Hk. destruct (decide (k'' = k)); [done|].
    apply elem_of_cons in Hin as [[= -> ->]|Hin]; [done|by apply IH].
Qed.

Lemma removeSelectedItem_current st k item :
  tracked_items st !! k = Some item →
  removeSelectedItem (Some k) st =
  (Returned tt,
   set_items (dict_del (role item))
     (set_tracked_items (delete k)
        (set_table (delete_where_name (role item)) st))).
Proof. intros Hk. unfold removeSelectedItem. py. csimpl. by rewrite Hk. Qed.

(** C9. Removing the current list entry deletes every stored row of its
    name and the tracker's entry for it, and nothing else of the store.
    When no row and no tracker entry has that name the store is left as
    it is, so removing the same name once more changes nothing; without a
    current entry nothing happens at all.  Every case returns. *)
Theorem removeSelectedItem_idempotent st k item :
  tracked_items st !! k = Some item →
  removeSelectedItem None st = (Returned tt, st) ∧
  ∃ st',
    removeSelectedItem (Some k) st = (Returned tt, st') ∧
    rows (table st') = filter (λ r, name r ≠ role item) (rows (table st)) ∧
    (role item ∉ name <$> rows (table st')) ∧
    dict_get (items st') (role item) = None ∧
    (∀ n, n ≠ role item → dict_get (items st') n = dict_get (items st) n) ∧
    (role item ∉ name <$> rows (table st) → table st' = table st) ∧
    (dict_get (items st) (role item) = None → items st' = items st) ∧
    (∀ k' item',
       tracked_items st' !! k' = Some item' → role item' = role item →
       ∃ st'',
         removeSelectedItem (Some k') st' = (Returned tt, st'') ∧
         table st'' = table st' ∧ items st'' = items st').
Proof.
  intros Hk. split; [done|].
  assert (∀ t, role item ∉ name <$> rows t →
               delete_where_name (role item) t = t) as Hno_row.
  { intros [rs sq] Hrs. unfold delete_where_name. cbn [rows sqlite_sequence] in *.
    f_equal. apply filter_all, Forall_forall. intros r Hr Heq.
    apply Hrs. rewrite <- Heq. by apply list_elem_of_fmap_2. }
  assert (role item ∉ name <$> filter (λ r, name r ≠ role item) (rows (table st)))
    as Hgone.
  { by intros (r & -> & [Hne _]%list_elem_of_filter)%list_elem_of_fmap. }
  eexists. split; [by apply removeSelectedItem_current|].
  cbn [set_items set_tracked_items set_table table items tracked_items
       delete_where_name rows].
  repeat split.
  - done.
  - apply dict_get_dict_del_eq.
  - intros n Hn. by apply dict_get_dict_del_ne.
  - apply Hno_row.
  - apply dict_del_absent.
  - intros k' item' Hk' Hrole. eexists.
    split; [by apply removeSelectedItem_current|].
    cbn [set_items set_tracked_items set_table table items tracked_items].
    rewrite Hrole. split.
    + by apply Hno_row.
    + apply dict_del_absent, dict_get_dict_del_eq.
Qed.

Lemma removeSelectedItem_idempotent_witness :
  ∃ st',
    removeSelectedItem (Some 0%nat) seeded = (Returned tt, st') ∧
    rows (table st') = [] ∧ items st' = [].
Proof.
  destruct (removeSelectedItem_idempotent seeded 0%nat
              (ListItem "Dragon bones" 2900 0 2850 0 (Some Amber)))
    as (_ & st' & Hrun & Hrows & _).
  - by vm_compute.
  - exists st'. split; [exact Hrun|]. split.
    + rewrite Hrows. by vm_compute.
    + injection Hrun as <-. by vm_compute.
Defined.

(** ** Name resolution *)


Lemma get_item_id_response lower status catalog item_name st :
  get_item_id lower (Response status catalog) item_name st =
  (Returned (if decide (status = 200)
             then get_item_id_loop lower catalog item_name else None),
   set_requests (λ l, l ++ [mapping_url]) st).
Proof. unfold get_item_id. py. by destruct (decide (status = 200)). Qed.


Lemma addSelectedItem_unknown item_name reply st :
  truthy (all_items st !! item_name) = None →
  addSelectedItem item_name reply st =
  (Returned tt,
   set_stdout (λ out, out ++ ["Could not find item ID for " +:+ item_name]) st).
Proof. intros Hno. unfold addSelectedItem. py. by rewrite Hno. Qed.



(** ** Adding an item *)

Lemma dict_get_dict_set_eq k v d : dict_get (dict_set k v d) k = Some v.
Proof.
  induction d as [|[k' v'] d IH]; csimpl; [by rewrite decide_True|].
  destruct (decide (k' = k)) as [->|Hne]; csimpl.
  - by rewrite decide_True.
  - by rewrite decide_False.
Qed.

Lemma dict_set_keys k v d :
  (dict_set k v d).*1 = if decide (k ∈ d.*1) then d.*1 else d.*1 ++ [k].
Proof.
  induction d as [|[k' v'] d IH].
  - cbn [dict_set fmap list_fmap fst app].
    destruct (decide (k ∈ [])) as [Hin|Hin]; [|done].
    by apply elem_of_nil in Hin.
  - cbn [dict_set]. destruct (decide (k' = k)) as [->|Hne]; csimpl.
    + destruct (decide (k ∈ k :: d.*1)) as [Hin|Hin]; [done|].
      destruct Hin. apply elem_of_cons; by left.
    + rewrite IH.
      destruct (decide (k ∈ d.*1)) as [Hd|Hd];
        destruct (decide (k ∈ k' :: d.*1)) as [Hin|Hin]; try done.
      * destruct Hin. apply elem_of_cons; by right.
      * apply elem_of_cons in Hin as [?|?]; by subst.
Qed.

Lemma dict_set_NoDup k v d : NoDup d.*1 → NoDup (dict_set k v d).*1.
Proof.
  intros Hnd. rewrite dict_set_keys. destruct (decide (k ∈ d.*1)); [done|].
  apply NoDup_app. split; [done|]. split; [|apply NoDup_singleton].
  by intros x Hx ->%list_elem_of_singleton.
Qed.

Lemma next_rowid_fresh t r : r ∈ rows t → id r < next_rowid t.
Proof.
  unfold next_rowid. induction (rows t) as [|x l IH]; csimpl.
  - by intros ?%elem_of_nil.
  - intros [->|Hin]%elem_of_cons; [lia|]. specialize (IH Hin). lia.
Qed.

Lemma next_rowid_replaces_nothing t :
  filter (λ r, id r ≠ next_rowid t) (rows t) = rows t.
Proof.
  apply filter_all, Forall_forall. intros r Hr.
  pose proof (next_rowid_fresh t r Hr). lia.
Qed.

Lemma insert_or_replace_rows n h lo lh ll t :
  rows (insert_or_replace n h lo lh ll t) =
  rows t ++ [MkRow (next_rowid t) n h lo (Some lh) (Some ll)].
Proof.
  unfold insert_or_replace. cbn [rows]. by rewrite next_rowid_replaces_nothing.
Qed.

Lemma addSelectedItem_response item_name item_id status data st :
  truthy (all_items st !! item_name) = Some item_id →
  let st1 := after_fetch status data (set_items (dict_set item_name item_id) st) in
  addSelectedItem item_name (Response status data) st =
  (Returned tt,
   match snapshot status data (items st1) !! item_name with
   | Some p =>
       set_tracked_items
         (λ l, l ++ [updateItemColor
                       (ListItem item_name (Price.high p)
                          (Price.high p - Price.high p) (Price.low p)
                          (Price.low p - Price.low p) None)
                       (Price.high p - Price.high p)
                       (Price.low p - Price.low p)])
         (set_table (insert_or_replace item_name (Price.high p) (Price.low p)
                       (Price.high p) (Price.low p)) st1)
   | None =>
       set_stdout (λ out, out ++ ["No price data available for " +:+ item_name])
                  st1
   end).
Proof.
  intros Hid st1. unfold addSelectedItem. py. rewrite Hid.
  rewrite fetch_prices_response. cbn [items set_items].
  fold st1. change (items st1) with (dict_set item_name item_id (items st)).
  by destruct (snapshot status data _ !! item_name).
Qed.

(** C2.  [addSelectedItem] resolves a name by its own lookup,
    [self.all_items.get(item_name)] followed by [if item_id:].  For
    every name that resolves there, that is, a key of [all_items] with a
    nonzero identifier: if the response is a 200 with data for the
    identifier, a row is created whose high and low, and whose last high
    and last low, are the fetched ones, and the list entry made for it
    shows changes 0 and 0; if the response has no data for the
    identifier, the table and the list stay as they are and "No price
    data available" is printed. *)
Theorem addSelectedItem_seeds_baseline st item_name item_id status data :
  NoDup (items st).*1 →
  all_items st !! item_name = Some item_id →
  item_id ≠ 0 →
  ∃ st',
    addSelectedItem item_name (Response status data) st = (Returned tt, st') ∧
    items st' = dict_set item_name item_id (items st) ∧
    (∀ e, status = 200 → data !! str item_id = Some e →
       rows (table st') =
         rows (table st) ++
         [MkRow (next_rowid (table st)) item_name (Latest.high e) (Latest.low e)
                (Some (Latest.high e)) (Some (Latest.low e))] ∧
       tracked_items st' =
         tracked_items st ++
         [ListItem item_name (Latest.high e) 0 (Latest.low e) 0 (Some Amber)]) ∧
    ((status = 200 → data !! str item_id = None) →
       table st' = table st ∧ tracked_items st' = tracked_items st ∧
       last (stdout st') = Some ("No price data available for " +:+ item_name)).
Proof.
  intros Hnd Hall Hnz.
  assert (truthy (all_items st !! item_name) = Some item_id) as Hid.
  { rewrite Hall. unfold truthy. by rewrite decide_False. }
  eexists. split; [by apply addSelectedItem_response|].
  cbn [items after_fetch set_items].
  rewrite snapshot_lookup by by apply dict_set_NoDup.
  rewrite dict_get_dict_set_eq. csimpl.
  destruct (decide (status = 200)) as [H200|H200];
    [destruct (data !! str item_id) as [e|] eqn:He|]; csimpl.
  - split; [done|]. split; [|by intros Habs; specialize (Habs H200)].
    intros e' _ [= <-]. rewrite next_rowid_replaces_nothing. split; [done|].
    rewrite !Z.sub_diag. unfold updateItemColor.
    rewrite !decide_False by lia. done.
  - split; [done|]. split; [by intros e' _ [=]|].
    intros _. split; [done|]. split; [done|]. by rewrite last_snoc.
  - split; [done|]. split; [by intros e' ? _|].
    intros _. split; [done|]. split; [done|]. by rewrite last_snoc.
Qed.

Lemma addSelectedItem_seeds_baseline_witness :
  rows (table seeded) = [MkRow 1 "Dragon bones" 2900 2850 (Some 2900) (Some 2850)] ∧
  tracked_items seeded = [ListItem "Dragon bones" 2900 0 2850 0 (Some Amber)].
Proof.
  destruct (addSelectedItem_seeds_baseline started "Dragon bones" 536 200
              (latest536 2900 2850))
    as (st' & Hrun & _ & Hdata & _).
  - vm_compute. apply NoDup_nil_2.
  - by vm_compute.
  - done.
  - destruct (Hdata (Latest.Build 2900 2850 1700000000 1700000000))
      as [Hrows Hlist]; [done|by vm_compute|].
    unfold seeded. rewrite Hrun. cbn [snd]. rewrite Hrows, Hlist.
    split; by vm_compute.
Defined.

(** C3 fails on the code: the table has no uniqueness constraint on
    [name], so INSERT OR REPLACE never replaces, and adding a stored name
    again stores a second row of that name. *)
Theorem addSelectedItem_twice_two_rows :
  name <$> rows (table seeded) = ["Dragon bones"] ∧
  ∃ st',
    addSelectedItem "Dragon bones" (Response 200 (latest536 3000 2800)) seeded
      = (Returned tt, st') ∧
    rows (table st') =
      [MkRow 1 "Dragon bones" 2900 2850 (Some 2900) (Some 2850);
       MkRow 2 "Dragon bones" 3000 2800 (Some 3000) (Some 2800)].
Proof.
  split; [by vm_compute|]. eexists. split; by vm_compute.
Qed.

(** ** An unreachable host *)

(** C4 fails on the code: when the host cannot be reached,
    [requests.get] raises and nothing catches it, in [get_item_id] for
    every name and state, and likewise in a refresh and in an add that
    reach the request. *)
Theorem unreachable_host_raises :
  (∀ lower why item_name st,
     get_item_id lower (Unreachable why) item_name st =
     (Raised (ConnectionError why),
      set_requests (λ l, l ++ [mapping_url]) st)) ∧
  (∀ why,
     (fetch_prices (Unreachable why) seeded).1 = Raised (ConnectionError why) ∧
     (refreshPrices (Unreachable why) seeded).1 = Raised (ConnectionError why) ∧
     (addSelectedItem "Dragon bones" (Unreachable why) started).1
       = Raised (ConnectionError why)).
Proof.
  split.
  - intros lower why item_name st. unfold get_item_id. by py.
  - intros why. by vm_compute.
Qed.

(** ** The invariants hold in every state the application reaches *)

Lemma dict_set_nonempty k v d : dict_set k v d ≠ [].
Proof. destruct d as [|[k' v'] d]; csimpl; [done|]. by destruct (decide (k' = k)). Qed.

Lemma NoDup_fmap_filter {A B} (f : A → B) (P : A → Prop)
    `{∀ x, Decision (P x)} (l : list A) :
  NoDup (f <$> l) → NoDup (f <$> filter P l).
Proof.
  induction l as [|x l IH]; csimpl; [done|].
  intros [Hx Hl]%NoDup_cons. destruct (decide (P x)).
  - rewrite filter_cons_True by done. csimpl. apply NoDup_cons.
    split; [|by apply IH].
    intros (y & Hxy & [_ Hy]%list_elem_of_filter)%list_elem_of_fmap.
    apply Hx. rewrite Hxy. by apply list_elem_of_fmap_2.
  - rewrite filter_cons_False by done. by apply IH.
Qed.

Lemma first_entry_delete n k item (l : list QListWidgetItem) :
  l !! k = Some item → n ≠ role item →
  first_entry n (delete k l) = first_entry n l.
Proof.
  revert k. induction l as [|x l IH]; intros [|k]; csimpl; try done.
  - intros [= ->] Hne. by rewrite decide_False.
  - intros Hk Hne. by rewrite (IH k).
Qed.

Lemma first_entry_app_is_Some n (l1 l2 : list QListWidgetItem) :
  is_Some (first_entry n l1) ∨ is_Some (first_entry n l2) →
  is_Some (first_entry n (l1 ++ l2)).
Proof.
  rewrite !first_entry_is_Some, fmap_app, elem_of_app. tauto.
Qed.

Lemma addSelectedItem_wf item_name reply st :
  wf st → wf (addSelectedItem item_name reply st).2.
Proof.
  intros [Hpk Hdict Hlisted].
  destruct (truthy (all_items st !! item_name)) as [item_id|] eqn:Hid.
  2:{ by rewrite addSelectedItem_unknown. }
  destruct reply as [why|status data].
  - unfold addSelectedItem. py. rewrite Hid.
    rewrite fetch_prices_unreachable by apply dict_set_nonempty.
    split; cbn [snd set_requests set_items table items tracked_items];
      [done|by apply dict_set_NoDup|done].
  - rewrite (addSelectedItem_response _ item_id) by done. cbn [snd].
    destruct (snapshot status data _ !! item_name) as [p|].
    + split;
        cbn [set_tracked_items set_table after_fetch set_items table items
             tracked_items].
      * rewrite insert_or_replace_rows, fmap_app. apply NoDup_app.
        split; [done|]. split; [|apply NoDup_singleton].
        intros i (r & -> & Hr)%list_elem_of_fmap Hi.
        apply list_elem_of_singleton in Hi. cbn [id] in Hi.
        pose proof (next_rowid_fresh _ _ Hr). lia.
      * by apply dict_set_NoDup.
      * intros r. rewrite insert_or_replace_rows.
        intros [Hr|Hr]%elem_of_app; apply first_entry_app_is_Some.
        -- left. by apply Hlisted.
        -- right. apply list_elem_of_singleton in Hr as ->. cbn [name].
           apply first_entry_is_Some, list_elem_of_singleton.
           by destruct (updateItemColor_fields
             (ListItem item_name (Price.high p) (Price.high p - Price.high p)
                (Price.low p) (Price.low p - Price.low p) None)
             (Price.high p - Price.high p) (Price.low p - Price.low p))
             as (-> & _).
    + split; cbn [set_stdout after_fetch set_items table items tracked_items];
        [done|by apply dict_set_NoDup|done].
Qed.

Lemma refreshPrices_wf reply st : wf st → wf (refreshPrices reply st).2.
Proof.
  intros Hwf. destruct reply as [why|status data].
  - destruct (items st) as [|kv its] eqn:Hits.
    + rewrite (proj2 (fetch_prices_nothing_tracked_aux (Unreachable why) st Hits)).
      by destruct Hwf.
    + unfold refreshPrices. unfold bind at 1.
      rewrite fetch_prices_unreachable by by rewrite Hits.
      by destruct Hwf.
  - rewrite refreshPrices_response. cbn [snd].
    apply (refresh_loop_wf _ (after_fetch status data st)).
    by apply after_fetch_wf.
Qed.

Lemma removeSelectedItem_wf current st :
  wf st → wf (removeSelectedItem current st).2.
Proof.
  intros [Hpk Hdict Hlisted].
  destruct current as [k|]; [|done].
  destruct (tracked_items st !! k) as [item|] eqn:Hcur.
  2:{ unfold removeSelectedItem. py. csimpl. by rewrite Hcur. }
  rewrite (removeSelectedItem_current _ _ item) by done.
  split;
    cbn [snd set_items set_tracked_items set_table table items tracked_items
         delete_where_name rows].
  - by apply NoDup_fmap_filter.
  - by apply NoDup_fmap_filter.
  - intros r [Hne Hr]%list_elem_of_filter.
    rewrite (first_entry_delete _ _ item) by done. by apply Hlisted.
Qed.

Lemma loadItems_loop_returns lower replies k fetched st st' :
  loadItems_loop lower replies k fetched st = (Returned tt, st') →
  table st' = table st ∧
  (NoDup (items st).*1 → NoDup (items st').*1) ∧
  role <$> tracked_items st' = (role <$> tracked_items st) ++ (name <$> fetched).
Proof.
  revert k st. induction fetched as [|item rest IH]; intros k st;
    cbn [loadItems_loop].
  - py. intros [= <-]. by rewrite app_nil_r.
  - unfold addItemToList, get_item_id. py.
    destruct (replies k) as [why|status catalog]; [by intros [=]|].
    cbn [fst snd].
    set (entry := updateItemColor _ _ _).
    assert (role entry = name item) as Hentry.
    { unfold entry. by destruct (updateItemColor_fields
        (ListItem (name item) (high_price item)
           (high_price item - default (high_price item) (last_high_price item))
           (low_price item)
           (low_price item - default (low_price item) (last_low_price item)) None)
        (high_price item - default (high_price item) (last_high_price item))
        (low_price item - default (low_price item) (last_low_price item)))
        as (-> & _). }
    destruct (decide (status = 200)); cbn beta iota;
      (match goal with |- context [truthy ?a] => destruct (truthy a) as [i|] end);
      cbn beta iota; intros (Ht & Hd & Hr)%IH;
      (split; [by rewrite Ht|]); split.
    all: try (intros Hnd; apply Hd;
              cbn [set_items set_requests set_tracked_items items];
              try apply dict_set_NoDup; done).
    all: rewrite Hr;
         cbn [set_items set_requests set_tracked_items tracked_items];
         rewrite fmap_app; csimpl; by rewrite Hentry, <- app_assoc.
Qed.

Lemma fetch_all_items_returns reply st :
  ∃ m st',
    fetch_all_items reply st = (Returned m, st') ∧
    items st' = items st ∧ table st' = table st ∧
    tracked_items st' = tracked_items st.
Proof.
  unfold fetch_all_items. py. destruct reply as [why|status catalog].
  - by eexists _, _.
  - cbn [fst snd]. destruct (decide (status = 200)); by eexists _, _.
Qed.

(** The application starts in a state that satisfies the invariants,
    whatever the database file holds (its primary key being unique). *)
Lemma init_wf lower file replies reply st0 st :
  (∀ t, file = Some t → NoDup (id <$> rows t)) →
  __init__ lower file replies reply st0 = (Returned tt, st) →
  wf st.
Proof.
  intros Hfile. unfold __init__, loadItems. py. cbn [table].
  set (st1 := MkApp [] ∅ (initDB file) [] (stdout st0) (requests st0)).
  destruct (loadItems_loop lower replies 0 (rows (initDB file)) st1)
    as [[[]|e] st2] eqn:Hload; [|by intros [=]].
  apply loadItems_loop_returns in Hload as (Htable & Hdict & Hroles).
  destruct (fetch_all_items_returns reply st2) as (m & st3 & -> & Hi & Ht & Hl).
  intros [= <-]. split; cbn [set_all_items table items tracked_items].
  - rewrite Ht, Htable. cbn [st1 table]. destruct file as [t|]; csimpl.
    + by apply Hfile.
    + apply NoDup_nil_2.
  - rewrite Hi. apply Hdict. apply NoDup_nil_2.
  - intros r. rewrite Ht, Htable, Hl. cbn [st1 table]. intros Hr.
    apply first_entry_is_Some. rewrite Hroles. csimpl.
    by apply list_elem_of_fmap_2.
Qed.

(** X19. In every state of a run the invariants hold: the row ids are
    pairwise different, the tracker has each name once, and every stored
    row has a list entry of its name. *)
Lemma reachable_wf lower st : reachable lower st → wf st.
Proof.
  induction 1 as [file replies reply st0 st Hfile Hinit
                 | item_name reply st _ IH
                 | reply st _ IH
                 | current st _ IH].
  - by eapply init_wf.
  - by apply addSelectedItem_wf.
  - by apply refreshPrices_wf.
  - by apply removeSelectedItem_wf.
Qed.

Lemma reachable_wf_witness : wf seeded.
Proof.
  apply (reachable_wf lower_ascii). apply reach_add.
  by apply (reach_init lower_ascii None (λ _, Unreachable "")
              (Response 200 catalog0) fresh started).
Defined.

(** * Further properties of the two files *)

(** ** [fetch_prices] *)

(** X1. On a response, [fetch_prices] returns a dict that has a tracked
    name exactly when the status is 200 and the body has data for the
    name's identifier; the value then carries the body's high, low and
    highTime.  Names that are not tracked never appear. *)
Theorem fetch_prices_entries st status data :
  NoDup (items st).*1 →
  ∃ prices st',
    fetch_prices (Response status data) st = (Returned prices, st') ∧
    ∀ n p,
      prices !! n = Some p ↔
      status = 200 ∧
      ∃ i e, dict_get (items st) n = Some i ∧ data !! str i = Some e ∧
             p = Price.Build (Latest.high e) (Latest.low e) (Latest.highTime e).
Proof.
  intros Hnd. eexists _, _. split; [apply fetch_prices_response|].
  intros n p. rewrite snapshot_lookup by done.
  destruct (decide (status = 200)) as [H200|H200].
  - destruct (dict_get (items st) n) as [i|] eqn:Hi; csimpl.
    + destruct (data !! str i) as [e|] eqn:He; csimpl.
      * split.
        -- intros [= <-]. split; [done|]. by exists i, e.
        -- intros (_ & i' & e' & [= <-] & He' & ->).
           rewrite He in He'. by injection He' as <-.
      * split; [done|]. intros (_ & i' & e' & [= <-] & He' & _). congruence.
    + split; [done|]. by intros (_ & i' & e' & [=] & _).
  - split; [done|]. by intros [? _].
Qed.

Lemma fetch_prices_entries_witness :
  ∃ prices st',
    fetch_prices (Response 200 (latest536 3000 2800)) seeded
      = (Returned prices, st') ∧
    prices !! "Dragon bones" = Some (Price.Build 3000 2800 1700000000).
Proof.
  destruct (fetch_prices_entries seeded 200 (latest536 3000 2800))
    as (prices & st' & Hrun & Hprices).
  - apply seeded_wf.
  - exists prices, st'. split; [exact Hrun|]. apply Hprices.
    split; [done|]. exists 536, (Latest.Build 3000 2800 1700000000 1700000000).
    by vm_compute.
Defined.

(** X2. On a 200 response every tracked name is either priced or
    reported: it is missing from the returned dict exactly when its "No
    data available" line is among the lines printed by the call. *)
Theorem fetch_prices_priced_or_reported st data n i :
  NoDup (items st).*1 →
  dict_get (items st) n = Some i →
  ∃ prices st' lines,
    fetch_prices (Response 200 data) st = (Returned prices, st') ∧
    stdout st' = stdout st ++ lines ∧
    (prices !! n = None ↔ ("No data available for " +:+ n) ∈ lines).
Proof.
  intros Hnd Hi. eexists _, _, _. split; [apply fetch_prices_response|].
  split; [done|]. rewrite snapshot_lookup by done.
  rewrite decide_True, Hi by done. csimpl. unfold fetch_lines.
  destruct (items st) as [|kv its] eqn:Hits; [done|].
  rewrite decide_True by done. rewrite <- Hits in *. split.
  - destruct (data !! str i) eqn:He; [done|]. intros _.
    by apply (no_data_lines_elem_of _ _ _ i).
  - intros ([n' i'] & Hin & Hline)%list_elem_of_omap. csimpl in Hline.
    destruct (data !! str i') eqn:He'; [done|].
    injection Hline as Hline. apply (inj (String.append _)) in Hline as ->.
    assert (dict_get (items st) n = Some i') as Hi'.
    { clear -Hnd Hin. induction (items st) as [|[k v] d IH]; csimpl in *.
      - by apply elem_of_nil in Hin.
      - apply NoDup_cons in Hnd as [Hk Hnd].
        apply elem_of_cons in Hin as [[= <- <-]|Hin].
        + by rewrite decide_True.
        + rewrite decide_False; [by apply IH|].
          intros ->. apply Hk. by apply (list_elem_of_fmap_2 fst _ (n, i')). }
    rewrite Hi in Hi'. injection Hi' as ->. by rewrite He'.
Qed.

Lemma fetch_prices_priced_or_reported_witness :
  ∃ prices st' lines,
    fetch_prices (Response 200 ∅) seeded = (Returned prices, st') ∧
    stdout st' = stdout seeded ++ lines ∧
    (prices !! "Dragon bones" = None ↔
     "No data available for Dragon bones" ∈ lines).
Proof.
  apply (fetch_prices_priced_or_reported seeded ∅ "Dragon bones" 536).
  - apply seeded_wf.
  - by vm_compute.
Defined.

(** X3. Whatever the remote end does, [fetch_prices] leaves the tracker,
    the catalog, the table and the list as they are, and requests the
    [/latest] URL once when something is tracked and nothing otherwise. *)
Theorem fetch_prices_frame reply st :
  let st' := (fetch_prices reply st).2 in
  items st' = items st ∧ all_items st' = all_items st ∧
  table st' = table st ∧ tracked_items st' = tracked_items st ∧
  requests st' = requests st ++ fetch_requests (items st).
Proof.
  destruct reply as [why|status data].
  - destruct (items st) as [|kv its] eqn:Hits.
    + rewrite (proj1 (fetch_prices_nothing_tracked_aux (Unreachable why) st Hits)).
      cbn. by rewrite app_nil_r.
    + rewrite fetch_prices_unreachable by by rewrite Hits. done.
  - by rewrite fetch_prices_response.
Qed.

(** ** What a refresh never does *)

Lemma refreshPrices_unreachable why st :
  items st ≠ [] →
  refreshPrices (Unreachable why) st =
  (Raised (ConnectionError why), set_requests (λ l, l ++ [latest_url]) st).
Proof.
  intros Hne. unfold refreshPrices. unfold bind at 1.
  by rewrite fetch_prices_unreachable.
Qed.

Lemma update_where_id_keys h lo lh ll i t :
  (λ r, (id r, name r)) <$> rows (update_where_id h lo lh ll i t) =
  (λ r, (id r, name r)) <$> rows t.
Proof.
  unfold update_where_id. cbn [rows]. induction (rows t) as [|r l IH]; [done|].
  csimpl. rewrite IH. by destruct (decide (id r = i)).
Qed.

Lemma refresh_loop_keys prices fetched st :
  (λ r, (id r, name r)) <$> rows (table (foldl (refresh_step prices) st fetched))
  = (λ r, (id r, name r)) <$> rows (table st).
Proof.
  revert st. induction fetched as [|[[[i n] lh] ll] fs IH]; intros st; csimpl.
  - done.
  - destruct (prices !! n) as [p|]; [|apply IH].
    rewrite IH. cbn [set_tracked_items set_table table].
    apply update_where_id_keys.
Qed.

(** X4. In no state and for no reply does [refreshPrices] add, delete or
    rename anything: the rows keep their ids and names in order, the
    AUTOINCREMENT counter stands, the list keeps its entries' names in
    order, and the tracker and the catalog are as before. *)
Theorem refreshPrices_frame reply st :
  let st' := (refreshPrices reply st).2 in
  (λ r, (id r, name r)) <$> rows (table st') =
    (λ r, (id r, name r)) <$> rows (table st) ∧
  sqlite_sequence (table st') = sqlite_sequence (table st) ∧
  role <$> tracked_items st' = role <$> tracked_items st ∧
  items st' = items st ∧ all_items st' = all_items st.
Proof.
  destruct reply as [why|status data].
  - destruct (items st) as [|kv its] eqn:Hits.
    + by rewrite (proj2 (fetch_prices_nothing_tracked_aux (Unreachable why) st Hits)).
    + rewrite refreshPrices_unreachable by by rewrite Hits.
      by rewrite <- Hits.
  - rewrite refreshPrices_response. cbn [snd].
    rewrite refresh_loop_keys.
    by destruct (refresh_loop_frame (snapshot status data (items st))
                   (select_id_name_high_low (table st))
                   (after_fetch status data st))
      as (-> & -> & _ & _ & -> & ->).
Qed.

(** ** The catalog is loaded once *)

Lemma addSelectedItem_unreachable item_name item_id why st :
  truthy (all_items st !! item_name) = Some item_id →
  addSelectedItem item_name (Unreachable why) st =
  (Raised (ConnectionError why),
   set_requests (λ l, l ++ [latest_url])
     (set_items (dict_set item_name item_id) st)).
Proof.
  intros Hid. unfold addSelectedItem. py. rewrite Hid.
  by rewrite fetch_prices_unreachable by apply dict_set_nonempty.
Qed.

(** X5. After start the catalog is never fetched again: adding,
    refreshing and removing leave [all_items] as it is, and the only URL
    any of them requests is [/latest], at most once per call. *)
Theorem catalog_loaded_once st :
  (∀ item_name reply,
     let st' := (addSelectedItem item_name reply st).2 in
     all_items st' = all_items st ∧
     (requests st' = requests st ∨ requests st' = requests st ++ [latest_url])) ∧
  (∀ reply,
     let st' := (refreshPrices reply st).2 in
     all_items st' = all_items st ∧
     (requests st' = requests st ∨ requests st' = requests st ++ [latest_url])) ∧
  (∀ current,
     let st' := (removeSelectedItem current st).2 in
     all_items st' = all_items st ∧ requests st' = requests st).
Proof.
  split; [|split].
  - intros item_name reply.
    destruct (truthy (all_items st !! item_name)) as [item_id|] eqn:Hid.
    2:{ rewrite addSelectedItem_unknown by done. split; [done|by left]. }
    destruct reply as [why|status data].
    + rewrite (addSelectedItem_unreachable _ item_id) by done.
      split; [done|by right].
    + rewrite (addSelectedItem_response _ item_id) by done. cbn [snd].
      assert (dict_set item_name item_id (items st) ≠ []) as Hne
        by apply dict_set_nonempty.
      destruct (snapshot status data _ !! item_name);
        (split; [done|]); right;
        cbn [set_tracked_items set_table set_stdout after_fetch set_items
             requests items]; unfold fetch_requests;
        by destruct (dict_set item_name item_id (items st)).
  - intros reply. destruct reply as [why|status data].
    + destruct (items st) as [|kv its] eqn:Hits.
      * rewrite (proj2 (fetch_prices_nothing_tracked_aux (Unreachable why) st Hits)).
        split; [done|by left].
      * rewrite refreshPrices_unreachable by by rewrite Hits.
        split; [done|by right].
    + rewrite refreshPrices_response. cbn [snd].
      destruct (refresh_loop_frame (snapshot status data (items st))
                  (select_id_name_high_low (table st))
                  (after_fetch status data st))
        as (_ & -> & _ & -> & _).
      split; [done|]. cbn [after_fetch requests]. unfold fetch_requests.
      destruct (items st); [left; by rewrite app_nil_r|by right].
  - intros [k|]; [|done].
    destruct (tracked_items st !! k) as [item|] eqn:Hk.
    + by rewrite (removeSelectedItem_current _ _ item).
    + unfold removeSelectedItem. py. csimpl. by rewrite Hk.
Qed.

(** ** Adding and removing compose *)

Lemma dict_set_absent k v d : dict_get d k = None → dict_set k v d = d ++ [(k, v)].
Proof.
  induction d as [|[k' v'] d IH]; csimpl; [done|].
  destruct (decide (k' = k)); [done|]. intros Hd. by rewrite IH.
Qed.

Lemma dict_del_snoc k v d : dict_get d k = None → dict_del k (d ++ [(k, v)]) = d.
Proof.
  intros Hd. unfold dict_del. rewrite filter_app.
  rewrite filter_cons_False by (csimpl; by intros ?).
  rewrite filter_nil, app_nil_r. by apply dict_del_absent.
Qed.

(** X6. Adding a name that is neither stored nor tracked and then
    removing the list entry the add appended restores the rows, the
    tracker and the list; only the AUTOINCREMENT counter remembers the
    add, so the rowid is not handed out again. *)
Theorem add_then_remove st item_name item_id data e :
  NoDup (items st).*1 →
  all_items st !! item_name = Some item_id →
  item_id ≠ 0 →
  data !! str item_id = Some e →
  item_name ∉ name <$> rows (table st) →
  dict_get (items st) item_name = None →
  let st1 := (addSelectedItem item_name (Response 200 data) st).2 in
  let st2 := (removeSelectedItem (Some (length (tracked_items st))) st1).2 in
  rows (table st2) = rows (table st) ∧
  items st2 = items st ∧
  tracked_items st2 = tracked_items st ∧
  sqlite_sequence (table st2) = next_rowid (table st).
Proof.
  intros Hnd Hall Hnz He Hrow Htracked st1 st2.
  assert (truthy (all_items st !! item_name) = Some item_id) as Hid.
  { rewrite Hall. unfold truthy. by rewrite decide_False. }
  unfold st2, st1. rewrite (addSelectedItem_response _ item_id) by done.
  cbn [snd items after_fetch set_items].
  rewrite snapshot_lookup by by apply dict_set_NoDup.
  rewrite decide_True, dict_get_dict_set_eq by done. csimpl. rewrite He. csimpl.
  set (entry := updateItemColor _ _ _).
  assert (role entry = item_name) as Hrole.
  { unfold entry. by destruct (updateItemColor_fields
      (ListItem item_name (Latest.high e) (Latest.high e - Latest.high e)
         (Latest.low e) (Latest.low e - Latest.low e) None)
      (Latest.high e - Latest.high e) (Latest.low e - Latest.low e))
      as (-> & _). }
  rewrite (removeSelectedItem_current _ _ entry).
  2:{ cbn [set_tracked_items tracked_items set_table after_fetch].
      by rewrite list_lookup_middle. }
  cbn [snd set_items set_tracked_items set_table after_fetch table items
       tracked_items delete_where_name insert_or_replace rows sqlite_sequence].
  rewrite Hrole, next_rowid_replaces_nothing.
  split; [|split; [|split]].
  - rewrite filter_app, filter_cons_False by (csimpl; by intros ?).
    rewrite filter_nil, app_nil_r. apply filter_all, Forall_forall.
    intros r Hr Heq. apply Hrow. rewrite <- Heq. by apply list_elem_of_fmap_2.
  - rewrite dict_set_absent by done. by apply dict_del_snoc.
  - rewrite (delete_middle _ []). by rewrite app_nil_r.
  - done.
Qed.

Lemma add_then_remove_witness :
  rows (table (removeSelectedItem (Some 0%nat) seeded).2) = [] ∧
  items (removeSelectedItem (Some 0%nat) seeded).2 = [] ∧
  tracked_items (removeSelectedItem (Some 0%nat) seeded).2 = [] ∧
  sqlite_sequence (table (removeSelectedItem (Some 0%nat) seeded).2) = 1.
Proof.
  apply (add_then_remove started "Dragon bones" 536 (latest536 2900 2850)
           (Latest.Build 2900 2850 1700000000 1700000000)).
  - vm_compute. apply NoDup_nil_2.
  - by vm_compute.
  - done.
  - by vm_compute.
  - vm_compute. by intros ?%elem_of_nil.
  - by vm_compute.
Defined.

(** X7. The list and the table can part: when two list entries carry
    the same name, removing one of them deletes every stored row of that
    name and the tracker's key, while the other entry stays in the
    list. *)
Theorem remove_leaves_other_entry st k k' item item' :
  k ≠ k' →
  tracked_items st !! k = Some item →
  tracked_items st !! k' = Some item' →
  role item' = role item →
  let st' := (removeSelectedItem (Some k) st).2 in
  (role item ∉ name <$> rows (table st')) ∧
  dict_get (items st') (role item) = None ∧
  item' ∈ tracked_items st'.
Proof.
  intros Hne Hk Hk' Hrole st'. unfold st'.
  rewrite (removeSelectedItem_current _ _ item) by done.
  cbn [snd set_items set_tracked_items set_table table items tracked_items
       delete_where_name rows].
  split; [|split].
  - by intros (r & -> & [Hr _]%list_elem_of_filter)%list_elem_of_fmap.
  - apply dict_get_dict_del_eq.
  - apply list_elem_of_lookup. destruct (decide (k' < k)%nat).
    + exists k'. by rewrite list_lookup_delete_lt.
    + exists (pred k'). rewrite list_lookup_delete_ge by lia.
      by replace (S (pred k')) with k' by lia.
Qed.

Lemma remove_leaves_other_entry_witness :
  let twice :=
    (addSelectedItem "Dragon bones" (Response 200 (latest536 3000 2800)) seeded).2 in
  let st' := (removeSelectedItem (Some 0%nat) twice).2 in
  ("Dragon bones" ∉ name <$> rows (table st')) ∧
  dict_get (items st') "Dragon bones" = None ∧
  ListItem "Dragon bones" 3000 0 2800 0 (Some Amber) ∈ tracked_items st'.
Proof.
  apply (remove_leaves_other_entry
           (addSelectedItem "Dragon bones" (Response 200 (latest536 3000 2800))
              seeded).2
           0%nat 1%nat (ListItem "Dragon bones" 2900 0 2850 0 (Some Amber))
           (ListItem "Dragon bones" 3000 0 2800 0 (Some Amber))).
  - done.
  - by vm_compute.
  - by vm_compute.
  - done.
Defined.

(** ** The two ways to resolve a name *)

Lemma name_to_id_not_named catalog (m : gmap string Z) n :
  n ∉ Catalog.name <$> catalog →
  foldl (λ m item, <[Catalog.name item := Catalog.id item]> m) m catalog !! n
    = m !! n.
Proof.
  revert m. induction catalog as [|x catalog IH]; intros m; csimpl; [done|].
  intros [Hx Hn]%not_elem_of_cons. rewrite IH by done.
  by rewrite lookup_insert_ne.
Qed.

Lemma name_to_id_last catalog1 catalog2 (m : gmap string Z) item :
  Catalog.name item ∉ Catalog.name <$> catalog2 →
  foldl (λ m item, <[Catalog.name item := Catalog.id item]> m) m
        (catalog1 ++ item :: catalog2) !! Catalog.name item
    = Some (Catalog.id item).
Proof.
  intros Hlast. rewrite foldl_app. csimpl.
  rewrite name_to_id_not_named by done. by rewrite lookup_insert_eq.
Qed.


(** X9. On a catalog whose names differ even after [lower], both ways
    agree on every name that occurs in it: [get_item_id]'s loop and the
    dict of [fetch_all_items] give the identifier of that element. *)
Theorem resolvers_agree lower catalog item :
  NoDup (lower ∘ Catalog.name <$> catalog) →
  item ∈ catalog →
  get_item_id_loop lower catalog (Catalog.name item) = Some (Catalog.id item) ∧
  name_to_id catalog !! Catalog.name item = Some (Catalog.id item).
Proof.
  intros Hnd Hin. split.
  - induction catalog as [|x catalog IH]; [by apply elem_of_nil in Hin|].
    csimpl in Hnd. apply NoDup_cons in Hnd as [Hx Hnd].
    cbn [get_item_id_loop].
    apply elem_of_cons in Hin as [->|Hin]; [by rewrite decide_True|].
    rewrite decide_False; [by apply IH|].
    intros Heq. apply Hx. rewrite Heq.
    by apply (list_elem_of_fmap_2 (lower ∘ Catalog.name)).
  - apply list_elem_of_split in Hin as (l1 & l2 & ->). unfold name_to_id.
    apply name_to_id_last. rewrite fmap_app in Hnd.
    apply NoDup_app in Hnd as (_ & _ & Hnd). csimpl in Hnd.
    apply NoDup_cons in Hnd as [Hitem _].
    intros (y & Hy & Hin)%list_elem_of_fmap. apply Hitem.
    rewrite Hy. by apply (list_elem_of_fmap_2 (lower ∘ Catalog.name)).
Qed.

Lemma resolvers_agree_witness :
  get_item_id_loop lower_ascii catalog0 "Dragon bones" = Some 536 ∧
  name_to_id catalog0 !! "Dragon bones" = Some 536.
Proof.
  apply (resolvers_agree lower_ascii catalog0 (Catalog.Build 536 "Dragon bones")).
  - vm_compute. apply NoDup_cons. split.
    + by intros [=]%list_elem_of_singleton.
    + apply NoDup_singleton.
  - apply elem_of_cons; right. apply elem_of_cons; by left.
Defined.

(** ** [fetch_all_items] *)

(** X10. [fetch_all_items] returns for every reply, also when the host
    cannot be reached: the name-to-identifier dict of the catalog on a
    200 response and the empty dict otherwise, after exactly one request
    to [/mapping], one printed line in the failing cases, and no change
    to tracker, table or list. *)
Theorem fetch_all_items_never_raises reply st :
  ∃ st',
    fetch_all_items reply st =
      (Returned match reply with
                | Response status catalog =>
                    if decide (status = 200) then name_to_id catalog else ∅
                | Unreachable _ => ∅
                end, st') ∧
    requests st' = requests st ++ [mapping_url] ∧
    stdout st' = stdout st ++
      match reply with
      | Response status catalog =>
          if decide (status = 200) then []
          else ["Error fetching items: HTTP " +:+ str status]
      | Unreachable why => ["Error fetching items: " +:+ why]
      end ∧
    items st' = items st ∧ table st' = table st ∧
    tracked_items st' = tracked_items st.
Proof.
  unfold fetch_all_items. py. destruct reply as [why|status catalog].
  - by eexists.
  - cbn [fst snd]. destruct (decide (status = 200)); eexists; split; try done.
    cbn. by rewrite app_nil_r.
Qed.

(** ** [GETracker.add_item] *)

Lemma add_item_found lower catalog item_name i st :
  get_item_id_loop lower catalog item_name = Some i → i ≠ 0 →
  add_item lower (Response 200 catalog) item_name st =
  (Returned tt,
   set_stdout (λ out, out ++ ["Added " +:+ item_name +:+ " to tracking list."])
     (set_items (dict_set item_name i)
        (set_requests (λ l, l ++ [mapping_url]) st))).
Proof.
  intros Hi Hnz. unfold add_item. unfold bind at 1.
  rewrite get_item_id_response, decide_True, Hi by done.
  unfold truthy. by rewrite decide_False.
Qed.

(** X11. [add_item] then [fetch_prices]: a name that [add_item] found
    in the catalog, under whatever spelling of letter case it was typed,
    is priced by the next successful [fetch_prices] under that typed
    name, with the data of the identifier found. *)
Theorem add_item_then_fetch_prices lower catalog item_name i data e st :
  NoDup (items st).*1 →
  get_item_id_loop lower catalog item_name = Some i →
  i ≠ 0 →
  data !! str i = Some e →
  ∃ prices st',
    fetch_prices (Response 200 data)
      (add_item lower (Response 200 catalog) item_name st).2
      = (Returned prices, st') ∧
    prices !! item_name =
      Some (Price.Build (Latest.high e) (Latest.low e) (Latest.highTime e)).
Proof.
  intros Hnd Hi Hnz He. rewrite (add_item_found _ _ _ i) by done. cbn [snd].
  eexists _, _. split; [apply fetch_prices_response|].
  cbn [items set_stdout set_items set_requests].
  rewrite snapshot_lookup by by apply dict_set_NoDup.
  rewrite decide_True, dict_get_dict_set_eq by done. csimpl. by rewrite He.
Qed.

Lemma add_item_then_fetch_prices_witness :
  ∃ prices st',
    fetch_prices (Response 200 (latest536 2900 2850))
      (add_item lower_ascii (Response 200 catalog0) "dragon BONES" fresh).2
      = (Returned prices, st') ∧
    prices !! "dragon BONES" = Some (Price.Build 2900 2850 1700000000).
Proof.
  apply (add_item_then_fetch_prices lower_ascii catalog0 "dragon BONES" 536
           (latest536 2900 2850)
           (Latest.Build 2900 2850 1700000000 1700000000) fresh).
  - vm_compute. apply NoDup_nil_2.
  - by vm_compute.
  - done.
  - by vm_compute.
Defined.

Lemma dict_set_dict_set k v d : dict_set k v (dict_set k v d) = dict_set k v d.
Proof.
  induction d as [|[k' v'] d IH]; csimpl.
  - by rewrite decide_True.
  - destruct (decide (k' = k)) as [->|Hne]; csimpl.
    + by rewrite decide_True.
    + by rewrite decide_False, IH.
Qed.

(** X12. [add_item] is idempotent on the tracker: adding a found name a
    second time from the same catalog leaves [items] as the first add
    made it (one key per name, unlike the rows of [addSelectedItem]). *)
Theorem add_item_twice lower catalog item_name i st :
  get_item_id_loop lower catalog item_name = Some i →
  i ≠ 0 →
  let st1 := (add_item lower (Response 200 catalog) item_name st).2 in
  let st2 := (add_item lower (Response 200 catalog) item_name st1).2 in
  items st2 = items st1 ∧ dict_get (items st1) item_name = Some i.
Proof.
  intros Hi Hnz st1 st2. unfold st2, st1.
  rewrite !(add_item_found _ _ _ i) by done.
  cbn [snd items set_stdout set_items set_requests].
  split; [apply dict_set_dict_set|apply dict_get_dict_set_eq].
Qed.

Lemma add_item_twice_witness :
  let st1 := (add_item lower_ascii (Response 200 catalog0) "Cannonball" fresh).2 in
  let st2 := (add_item lower_ascii (Response 200 catalog0) "Cannonball" st1).2 in
  items st2 = items st1 ∧ dict_get (items st1) "Cannonball" = Some 2.
Proof.
  apply (add_item_twice lower_ascii catalog0 "Cannonball" 2 fresh).
  - by vm_compute.
  - done.
Defined.

(** ** Starting the application *)

(** X13. On a database without rows the application always starts, also
    when the host cannot be reached: nothing is tracked or listed, and
    [all_items] is the dict of the catalog on a 200 response and empty
    otherwise. *)
Theorem init_empty_database lower file replies reply st0 :
  rows (initDB file) = [] →
  ∃ st,
    __init__ lower file replies reply st0 = (Returned tt, st) ∧
    items st = [] ∧ tracked_items st = [] ∧ table st = initDB file ∧
    all_items st =
      match reply with
      | Response status catalog =>
          if decide (status = 200) then name_to_id catalog else ∅
      | Unreachable _ => ∅
      end.
Proof.
  intros Hrows. unfold __init__, loadItems, fetch_all_items. py.
  cbn [table]. rewrite Hrows. cbn [loadItems_loop]. py.
  destruct reply as [why|status catalog].
  - by eexists.
  - cbn [fst snd]. destruct (decide (status = 200)); by eexists.
Qed.

Lemma init_empty_database_witness :
  ∃ st,
    __init__ lower_ascii None (λ _, Unreachable "") (Unreachable "offline") fresh
      = (Returned tt, st) ∧
    items st = [] ∧ tracked_items st = [] ∧ table st = MkTable [] 0 ∧
    all_items st = ∅.
Proof.
  apply (init_empty_database lower_ascii None (λ _, Unreachable "")
           (Unreachable "offline") fresh).
  done.
Defined.

(** X14. With a stored row the application does not start while the
    host cannot be reached: [loadItems] asks for the identifier of the
    first row, nothing catches the exception of that request, and
    [__init__] raises it, having listed that one row. *)
Theorem init_stored_rows_offline lower t r rest replies reply st0 why :
  rows t = r :: rest →
  replies 0%nat = Unreachable why →
  ∃ st,
    __init__ lower (Some t) replies reply st0 = (Raised (ConnectionError why), st) ∧
    tracked_items st = [row_entry r] ∧
    requests st = requests st0 ++ [mapping_url].
Proof.
  intros Hrows Hreply. unfold __init__, loadItems. py.
  cbn [table initDB default]. csimpl. rewrite Hrows. cbn [loadItems_loop].
  unfold addItemToList, get_item_id. py. rewrite Hreply. by eexists.
Qed.

Lemma init_stored_rows_offline_witness :
  ∃ st,
    __init__ lower_ascii (Some (table seeded)) (λ _, Unreachable "offline")
      (Unreachable "offline") fresh
      = (Raised (ConnectionError "offline"), st) ∧
    tracked_items st =
      [row_entry (MkRow 1 "Dragon bones" 2900 2850 (Some 2900) (Some 2850))] ∧
    requests st = requests fresh ++ [mapping_url].
Proof.
  apply (init_stored_rows_offline lower_ascii (table seeded)
           (MkRow 1 "Dragon bones" 2900 2850 (Some 2900) (Some 2850)) []
           (λ _, Unreachable "offline") (Unreachable "offline") fresh "offline").
  - by vm_compute.
  - done.
Defined.

Lemma row_entry_role r : role (row_entry r) = name r.
Proof.
  unfold row_entry. by destruct (updateItemColor_fields
    (ListItem (name r) (high_price r)
       (high_price r - default (high_price r) (last_high_price r))
       (low_price r)
       (low_price r - default (low_price r) (last_low_price r)) None)
    (high_price r - default (high_price r) (last_high_price r))
    (low_price r - default (low_price r) (last_low_price r)))
    as (-> & _).
Qed.

Lemma loadItems_loop_answered lower replies k fetched st :
  (∀ j, (j < length fetched)%nat → ∃ status catalog,
        replies (k + j)%nat = Response status catalog) →
  ∃ st',
    loadItems_loop lower replies k fetched st = (Returned tt, st') ∧
    tracked_items st' = tracked_items st ++ (row_entry <$> fetched) ∧
    table st' = table st ∧ all_items st' = all_items st ∧
    requests st' = requests st ++ replicate (length fetched) mapping_url.
Proof.
  revert k st. induction fetched as [|item rest IH]; intros k st Hreplies;
    cbn [loadItems_loop].
  - py. eexists. split; [done|]. csimpl. by rewrite !app_nil_r.
  - destruct (Hreplies 0%nat) as (status & catalog & Hk); [csimpl; lia|].
    rewrite Nat.add_0_r in Hk.
    unfold addItemToList. unfold bind at 1. py.
    rewrite Hk. rewrite get_item_id_response.
    fold (row_entry item).
    destruct (IH (S k)
      (match truthy (if decide (status = 200)
                     then get_item_id_loop lower catalog (name item) else None)
       with
       | Some i => set_items (dict_set (name item) i)
       | None => λ st, st
       end (set_requests (λ l, l ++ [mapping_url])
              (set_tracked_items (λ l, l ++ [row_entry item]) st))))
      as (st' & Hrun & Hlist & Htable & Hall & Hreq).
    { intros j Hj. replace (S k + j)%nat with (k + S j)%nat by lia.
      apply Hreplies. csimpl. lia. }
    exists st'. split.
    + rewrite <- Hrun. by destruct (truthy _).
    + rewrite Hlist, Htable, Hall, Hreq.
      destruct (truthy _);
        cbn [set_items set_requests set_tracked_items tracked_items table
             all_items requests]; csimpl;
        by rewrite <- !app_assoc.
Qed.

(** X15. When every catalog request is answered, with whatever status,
    [loadItems] returns with one list entry per stored row appended in
    row order, each showing the row's high and low and their differences
    to the row's last high and last low (0 where those are NULL); it
    makes one request per row and leaves the table alone. *)
Theorem loadItems_lists_every_row lower replies st :
  (∀ j, (j < length (rows (table st)))%nat → ∃ status catalog,
        replies j = Response status catalog) →
  ∃ st',
    loadItems lower replies st = (Returned tt, st') ∧
    tracked_items st' = tracked_items st ++ (row_entry <$> rows (table st)) ∧
    table st' = table st ∧
    requests st' =
      requests st ++ replicate (length (rows (table st))) mapping_url.
Proof.
  intros Hreplies. unfold loadItems. py.
  destruct (loadItems_loop_answered lower replies 0 (rows (table st)) st Hreplies)
    as (st' & Hrun & Hlist & Htable & _ & Hreq).
  by exists st'.
Qed.

Lemma loadItems_lists_every_row_witness :
  ∃ st',
    loadItems lower_ascii (λ _, Response 503 []) seeded = (Returned tt, st') ∧
    tracked_items st' =
      tracked_items seeded ++ (row_entry <$> rows (table seeded)) ∧
    table st' = table seeded ∧
    requests st' =
      requests seeded ++ replicate (length (rows (table seeded))) mapping_url.
Proof.
  apply (loadItems_lists_every_row lower_ascii (λ _, Response 503 []) seeded).
  intros j _. by exists 503, [].
Defined.

(** ** Restarting after a refresh *)

Lemma loadItems_loop_entries lower replies k fetched st st' :
  loadItems_loop lower replies k fetched st = (Returned tt, st') →
  tracked_items st' = tracked_items st ++ (row_entry <$> fetched).
Proof.
  revert k st. induction fetched as [|item rest IH]; intros k st;
    cbn [loadItems_loop].
  - py. intros [= <-]. csimpl. by rewrite app_nil_r.
  - unfold addItemToList. unfold bind at 1. py. fold (row_entry item).
    unfold get_item_id. py.
    destruct (replies k) as [why|status catalog]; [by intros [=]|].
    cbn [fst snd].
    destruct (decide (status = 200)); cbn beta iota;
      (match goal with |- context [truthy ?a] => destruct (truthy a) as [i|] end);
      cbn beta iota; intros ->%IH;
      cbn [set_items set_requests set_tracked_items tracked_items]; csimpl;
      by rewrite <- app_assoc.
Qed.

Lemma first_entry_row_entry (l : list Row) r :
  NoDup (name <$> l) → r ∈ l →
  first_entry (name r) (row_entry <$> l) = Some (row_entry r).
Proof.
  induction l as [|x l IH]; [by intros _ ?%elem_of_nil|].
  csimpl. intros [Hx Hnd]%NoDup_cons Hin. rewrite row_entry_role.
  apply elem_of_cons in Hin as [->|Hin]; [by rewrite decide_True|].
  rewrite decide_False; [by apply IH|].
  intros Heq. apply Hx. rewrite Heq. by apply list_elem_of_fmap_2.
Qed.

(** X16. What a refresh showed is shown again after a restart.  With
    one stored row per name: for every row that got a price in a
    refresh, an application started afterwards on the table the refresh
    left lists for that name the same four numbers the refresh put into
    the list, the fetched high and low and their differences to the
    baseline before the refresh. *)
Theorem restart_shows_last_refresh lower st data replies reply st0 st'' r
    item_id e :
  wf st →
  NoDup (name <$> rows (table st)) →
  r ∈ rows (table st) →
  dict_get (items st) (name r) = Some item_id →
  data !! str item_id = Some e →
  let st' := (refreshPrices (Response 200 data) st).2 in
  __init__ lower (Some (table st')) replies reply st0 = (Returned tt, st'') →
  shown (name r) (tracked_items st'') = shown (name r) (tracked_items st') ∧
  shown (name r) (tracked_items st'') =
    Some (Latest.high e, Latest.high e - high_price r,
          Latest.low e, Latest.low e - low_price r).
Proof.
  intros Hwf Hnames Hr Hid He st'. pose proof Hwf as [Hpk Hdict Hlisted].
  set (prices := snapshot 200 data (items st)).
  assert (prices !! name r = Some (price_of e)) as Hp.
  { unfold prices. rewrite snapshot_lookup by done.
    rewrite decide_True, Hid by done. csimpl. by rewrite He. }
  assert (rows (table st') = refresh_row prices <$> rows (table st)) as Hrows.
  { unfold st'. rewrite refreshPrices_response. cbn [snd].
    by apply (refresh_rows prices (after_fetch 200 data st)). }
  assert (shown (name r) (tracked_items st') =
          Some (Latest.high e, Latest.high e - high_price r,
                Latest.low e, Latest.low e - low_price r)) as Hshown.
  { unfold st'. rewrite refreshPrices_response. cbn [snd].
    change (table (after_fetch 200 data st)) with (table st).
    unfold select_id_name_high_low. fold prices.
    pose proof Hr as (l1 & l2 & Hsplit)%list_elem_of_split.
    rewrite Hsplit.
    rewrite (refresh_loop_shown prices l1 l2 r (price_of e)); [done|done| |].
    - rewrite Hsplit, fmap_app in Hnames.
      apply NoDup_app in Hnames as (_ & _ & Hnames). csimpl in Hnames.
      apply NoDup_cons in Hnames as [Hl2 _]. apply Forall_forall.
      intros r' Hr' Heq. apply Hl2. rewrite <- Heq.
      by apply list_elem_of_fmap_2.
    - by apply Hlisted. }
  intros Hinit. rewrite Hshown.
  assert (tracked_items st'' = row_entry <$> rows (table st')) as ->.
  { revert Hinit. unfold __init__, loadItems. py. cbn [table initDB default].
    csimpl.
    destruct (loadItems_loop lower replies 0 (rows (table st')) _)
      as [[[]|ex] st1] eqn:Hload; [|by intros [=]].
    apply loadItems_loop_entries in Hload. cbn [tracked_items] in Hload.
    destruct (fetch_all_items_returns reply st1) as (m & st2 & -> & _ & _ & Hl).
    intros [= <-]. cbn [set_all_items tracked_items]. by rewrite Hl, Hload. }
  cut (shown (name r) (row_entry <$> rows (table st')) =
       Some (Latest.high e, Latest.high e - high_price r,
             Latest.low e, Latest.low e - low_price r)); [done|].
  rewrite Hrows. unfold shown.
  assert (name r = name (refresh_row prices r)) as Hname
    by by rewrite refresh_row_name.
  rewrite Hname at 1. rewrite first_entry_row_entry.
  - csimpl. unfold refresh_row. rewrite Hp. unfold row_entry. csimpl.
    by destruct (updateItemColor_fields
      (ListItem (name r) (Latest.high e) (Latest.high e - high_price r)
         (Latest.low e) (Latest.low e - low_price r) None)
      (Latest.high e - high_price r) (Latest.low e - low_price r))
      as (_ & -> & -> & -> & ->).
  - by rewrite refresh_row_names.
  - by apply list_elem_of_fmap_2.
Qed.

Lemma restart_shows_last_refresh_witness :
  shown "Dragon bones"
    (tracked_items
       (__init__ lower_ascii
          (Some (table (refreshPrices (Response 200 (latest536 3000 2800))
                          seeded).2))
          (λ _, Response 200 catalog0) (Response 200 catalog0) fresh).2)
  = Some (3000, 3000 - 2900, 2800, 2800 - 2850).
Proof.
  apply (restart_shows_last_refresh lower_ascii seeded (latest536 3000 2800)
           (λ _, Response 200 catalog0) (Response 200 catalog0) fresh _
           (MkRow 1 "Dragon bones" 2900 2850 (Some 2900) (Some 2850)) 536
           (Latest.Build 3000 2800 1700000000 1700000000)).
  - apply seeded_wf.
  - vm_compute. apply NoDup_singleton.
  - vm_compute. apply elem_of_cons; by left.
  - by vm_compute.
  - by vm_compute.
  - by vm_compute.
Defined.

(** ** Formatting *)

Lemma pretty_N_char_no_comma x : pretty_N_char x ≠ ","%char.
Proof. unfold pretty_N_char. by repeat case_match. Qed.

Lemma pretty_N_go_no_comma x s :
  ","%char ∉ String.list_ascii_of_string s →
  ","%char ∉ String.list_ascii_of_string (pretty_N_go x s).
Proof.
  revert s. induction (N.lt_wf_0 x) as [x _ IH]; intros s Hs.
  destruct (decide (x = 0)%N) as [->|Hx]; [by rewrite pretty_N_go_0|].
  rewrite pretty_N_go_step by lia. apply IH; [apply N.div_lt; lia|].
  cbn [String.list_ascii_of_string]. apply not_elem_of_cons.
  split; [|done]. intros Heq. by apply (pretty_N_char_no_comma (x `mod` 10)%N).
Qed.

Lemma str_abs_no_comma z :
  ","%char ∉ String.list_ascii_of_string (str (Z.abs z)).
Proof.
  assert (∀ p, ","%char ∉ String.list_ascii_of_string (pretty (N.pos p)))
    as Hpos.
  { intros p. unfold pretty, pretty_N. rewrite decide_False by done.
    apply pretty_N_go_no_comma. by intros ?%elem_of_nil. }
  destruct z as [|p|p]; [|apply Hpos..].
  cbn. by intros [[=]|?%elem_of_nil]%elem_of_cons.
Qed.

Lemma group_thousands_step a b c d rest :
  group_thousands (a :: b :: c :: d :: rest) =
  a :: b :: c :: ","%char :: group_thousands (d :: rest).
Proof. done. Qed.

Lemma group_thousands_filter_bounded n (l : list ascii) :
  (length l ≤ n)%nat →
  ","%char ∉ l →
  filter (λ c, c ≠ ","%char) (group_thousands l) = l.
Proof.
  revert l. induction n as [|n IH]; intros l Hlen Hl.
  - destruct l; [done|]. csimpl in Hlen. lia.
  - destruct l as [|a [|b [|c [|d rest]]]];
      [apply filter_all, Forall_forall; by intros x Hx ->..|].
    rewrite group_thousands_step.
    apply not_elem_of_cons in Hl as [Ha Hl].
    apply not_elem_of_cons in Hl as [Hb Hl].
    apply not_elem_of_cons in Hl as [Hc Hl].
    rewrite !filter_cons_True by done.
    rewrite filter_cons_False by (by intros H; apply H).
    rewrite IH; [done| |done]. csimpl in *. lia.
Qed.

Lemma with_commas_read_back digits :
  ","%char ∉ String.list_ascii_of_string digits →
  remove_commas (with_commas digits) = digits.
Proof.
  intros Hd. unfold remove_commas, with_commas.
  rewrite String.list_ascii_of_string_of_list_ascii, filter_reverse.
  rewrite (group_thousands_filter_bounded
             (length (reverse (String.list_ascii_of_string digits)))).
  - by rewrite reverse_involutive, String.string_of_list_ascii_of_string.
  - done.
  - by rewrite elem_of_reverse.
Qed.

Lemma remove_commas_cons c s :
  c ≠ ","%char → remove_commas (String c s) = String c (remove_commas s).
Proof.
  intros Hc. unfold remove_commas. cbn [String.list_ascii_of_string].
  by rewrite filter_cons_True.
Qed.

(** X17. The commas are the only thing the two formats add to the
    decimal text: without them [format_price] of an integer reads
    [str] of it, and [format_change] reads the same with a [+] in front
    exactly when the change is positive (so a zero change reads "0"). *)
Theorem formats_read_back z :
  remove_commas (format_price z) = str z ∧
  remove_commas (format_change z) =
    (if decide (0 < z) then "+" else "") +:+ str z.
Proof.
  assert (remove_commas (format_price z) = str z) as Hprice.
  { pose proof (with_commas_read_back _ (str_abs_no_comma z)) as Hread.
    unfold format_price. destruct (decide (z < 0)) as [Hneg|Hneg].
    - change ("-" +:+ with_commas (str (Z.abs z)))
        with (String "-"%char (with_commas (str (Z.abs z)))).
      rewrite remove_commas_cons, Hread by done. by destruct z.
    - change ("" +:+ with_commas (str (Z.abs z)))
        with (with_commas (str (Z.abs z))).
      rewrite Hread. destruct z; first [done|lia]. }
  split; [done|]. unfold format_change.
  destruct (decide (0 < z)) as [Hpos|Hpos].
  - change ("+" +:+ format_price z) with (String "+"%char (format_price z)).
    by rewrite remove_commas_cons, Hprice.
  - destruct (decide (z < 0)); [done|].
    by replace z with 0 by lia.
Qed.

Lemma group_thousands_commas_bounded n (l : list ascii) (i : nat) :
  (length l ≤ n)%nat →
  ","%char ∉ l →
  group_thousands l !! i = Some ","%char ↔
  (i `mod` 4 = 3 ∧ i < length (group_thousands l))%nat.
Proof.
  revert l i. induction n as [|n IH]; intros l i Hlen Hl.
  { destruct l; [|csimpl in Hlen; lia]. csimpl.
    split; [done|]. intros [_ ?]. lia. }
  assert (∀ l' : list ascii, (length l' ≤ 3)%nat → ","%char ∉ l' →
            l' !! i = Some ","%char ↔ (i `mod` 4 = 3 ∧ i < length l')%nat)
    as Hshort.
  { intros l' Hlen' Hl'. split.
    - intros Hi. destruct Hl'. by apply list_elem_of_lookup_2 in Hi.
    - intros [Hmod Hi].
      assert (i < 3)%nat as Hi3 by lia.
      destruct i as [|[|[|i]]]; try lia; by vm_compute in Hmod. }
  destruct l as [|a [|b [|c [|d rest]]]];
    [apply Hshort; [csimpl; lia|done]..|].
  rewrite group_thousands_step.
  apply not_elem_of_cons in Hl as [Ha Hl].
  apply not_elem_of_cons in Hl as [Hb Hl].
  apply not_elem_of_cons in Hl as [Hc Hl].
  destruct i as [|[|[|[|i]]]].
  - csimpl. split; [by intros [= ->]|intros [Hmod _]; by vm_compute in Hmod].
  - csimpl. split; [by intros [= ->]|intros [Hmod _]; by vm_compute in Hmod].
  - csimpl. split; [by intros [= ->]|intros [Hmod _]; by vm_compute in Hmod].
  - csimpl. split; [intros _; split; [done|lia]|done].
  - change ((a :: b :: c :: ","%char :: group_thousands (d :: rest))
              !! S (S (S (S i))))
      with (group_thousands (d :: rest) !! i).
    change (length (a :: b :: c :: ","%char :: group_thousands (d :: rest)))
      with (S (S (S (S (length (group_thousands (d :: rest))))))).
    rewrite (IH (d :: rest) i) by (csimpl in *; first [lia|done]).
    replace (S (S (S (S i)))) with (i + 1 * 4)%nat by lia.
    rewrite Nat.Div0.mod_add. split; intros [? ?]; split; first [done|lia].
Qed.

(** X18. [format_price] of a nonnegative integer puts its commas
    exactly before every group of three digits counted from the right:
    read from the right, the characters at positions 3, 7, 11, ... are
    commas and no others are. *)
Theorem format_price_commas price i :
  0 ≤ price →
  reverse (String.list_ascii_of_string (format_price price)) !! i
    = Some ","%char ↔
  (i `mod` 4 = 3 ∧ i < String.length (format_price price))%nat.
Proof.
  intros Hnn. unfold format_price. rewrite decide_False by lia.
  change ("" +:+ with_commas (str (Z.abs price)))
    with (with_commas (str (Z.abs price))).
  unfold with_commas.
  assert (∀ l, String.length (String.string_of_list_ascii l) = length l)
    as Hlength.
  { induction l as [|c l IH]; csimpl; [done|]. by rewrite IH. }
  rewrite String.list_ascii_of_string_of_list_ascii, reverse_involutive.
  rewrite Hlength, length_reverse.
  apply (group_thousands_commas_bounded
           (length (reverse (String.list_ascii_of_string (str (Z.abs price)))))).
  - done.
  - rewrite elem_of_reverse. apply str_abs_no_comma.
Qed.

Lemma format_price_commas_witness :
  reverse (String.list_ascii_of_string (format_price 1234567)) !! 7%nat
    = Some ","%char ↔
  (7 `mod` 4 = 3 ∧ 7 < String.length (format_price 1234567))%nat.
Proof. apply (format_price_commas 1234567 7). lia. Defined.

(** ** Stored rows stay resolved *)

Lemma dict_get_dict_set_ne k n v d :
  k ≠ n → dict_get (dict_set k v d) n = dict_get d n.
Proof.
  intros Hne. induction d as [|[k' v'] d IH]; csimpl.
  - by rewrite decide_False.
  - destruct (decide (k' = k)) as [->|Hk]; csimpl.
    + by rewrite !decide_False.
    + by rewrite IH.
Qed.

Lemma rows_resolved_frame st st' :
  rows_resolved st →
  all_items st' = all_items st →
  items st' = items st →
  (∀ r', r' ∈ rows (table st') → ∃ r, r ∈ rows (table st) ∧ name r = name r') →
  rows_resolved st'.
Proof.
  intros Hres Hall Hitems Hrows r' (r & Hr & <-)%Hrows.
  rewrite Hall, Hitems. by apply Hres.
Qed.

(** X20. A stored row is always tracked under the identifier the catalog
    gave its name: if that holds of every row, as it does on an empty
    table, it still holds after any add, refresh or removal, whatever
    the remote end replies. *)
Theorem rows_stay_resolved st :
  rows_resolved st →
  (∀ item_name reply, rows_resolved (addSelectedItem item_name reply st).2) ∧
  (∀ reply, rows_resolved (refreshPrices reply st).2) ∧
  (∀ current, rows_resolved (removeSelectedItem current st).2).
Proof.
  intros Hres. split; [|split].
  - intros item_name reply.
    destruct (truthy (all_items st !! item_name)) as [item_id|] eqn:Hid.
    2:{ rewrite addSelectedItem_unknown by done.
        apply (rows_resolved_frame st); [done..|]. intros r' Hr'. by exists r'. }
    assert (all_items st !! item_name = Some item_id ∧ item_id ≠ 0)
      as [Hall Hnz].
    { unfold truthy in Hid. destruct (all_items st !! item_name) as [i|]; [|done].
      destruct (decide (i = 0)); [done|]. by injection Hid as ->. }
    assert (∀ r, r ∈ rows (table st) →
              ∃ i, all_items st !! name r = Some i ∧ i ≠ 0 ∧
                   dict_get (dict_set item_name item_id (items st)) (name r)
                     = Some i) as Hold.
    { intros r Hr. destruct (decide (item_name = name r)) as [<-|Hne].
      - exists item_id. by rewrite dict_get_dict_set_eq.
      - rewrite dict_get_dict_set_ne by done. by apply Hres. }
    destruct reply as [why|status data].
    + rewrite (addSelectedItem_unreachable _ item_id) by done. exact Hold.
    + rewrite (addSelectedItem_response _ item_id) by done. cbn [snd].
      destruct (snapshot status data _ !! item_name) as [p|]; [|exact Hold].
      intros r.
      cbn [set_tracked_items set_table after_fetch set_items table items
           all_items].
      rewrite insert_or_replace_rows.
      intros [Hr|Hr]%elem_of_app; [by apply Hold|].
      apply list_elem_of_singleton in Hr as ->. cbn [name].
      exists item_id. by rewrite dict_get_dict_set_eq.
  - intros reply. destruct reply as [why|status data].
    + destruct (items st) as [|kv its] eqn:Hits.
      * rewrite (proj2 (fetch_prices_nothing_tracked_aux (Unreachable why) st Hits)).
        apply (rows_resolved_frame st); [done..|]. intros r' Hr'. by exists r'.
      * rewrite refreshPrices_unreachable by by rewrite Hits.
        apply (rows_resolved_frame st); [done..|]. intros r' Hr'. by exists r'.
    + rewrite refreshPrices_response. cbn [snd].
      destruct (refresh_loop_frame (snapshot status data (items st))
                  (select_id_name_high_low (table st))
                  (after_fetch status data st))
        as (Hitems & Hall & _).
      apply (rows_resolved_frame st); [done..|].
      intros r' Hr'.
      apply (list_elem_of_fmap_2 (λ r, (id r, name r))) in Hr'.
      rewrite refresh_loop_keys in Hr'.
      apply list_elem_of_fmap in Hr' as (r & [= _ Hname] & Hr).
      by exists r.
  - intros [k|]; [|done].
    destruct (tracked_items st !! k) as [item|] eqn:Hk.
    2:{ unfold removeSelectedItem. py. csimpl. by rewrite Hk. }
    rewrite (removeSelectedItem_current _ _ item) by done.
    intros r.
    cbn [snd set_items set_tracked_items set_table table items all_items
         delete_where_name rows].
    intros [Hne Hr]%list_elem_of_filter.
    rewrite dict_get_dict_del_ne by done. by apply Hres.
Qed.

Lemma rows_stay_resolved_witness :
  rows_resolved
    (addSelectedItem "Cannonball" (Response 200 (latest536 3000 2800)) seeded).2.
Proof.
  apply (rows_stay_resolved seeded).
  intros r Hr. vm_compute in Hr. apply list_elem_of_singleton in Hr as ->.
  exists 536. by vm_compute.
Defined.
